(** * InstantNav: predictive scoring and speculative-directive engine

  A shallow embedding of the JavaScript sources of InstantNav
  (cursor tracker, link predictor, trust list, context manager,
  prefetcher and service worker) together with the properties the
  design document states about them.

  Conventions of the embedding.
  - JavaScript numbers that carry scores, coordinates and telemetry are
    modelled as real numbers [R]; [Date.now()] timestamps are integers [Z].
    [TrackerDouble] computes [getIntentionScore] on IEEE 754 doubles,
    where rounding matters.
  - A JavaScript [Map] keyed by strings is a [gmap string _]; arrays and
    the element-keyed link catalogue are lists (iteration order matters).
  - Host services (clock, [chrome.scripting.executeScript], the
    [navigator.connection] flags, the DOM) are explicit arguments; the
    requests a component sends to the host are appended to a log.
  - Writes to [chrome.storage] ([_saveState], [_saveStats]) copy the
    state out and are left out. In [Prefetcher] every call runs to
    completion before the next one starts; [PrefetcherAsync] splits
    [prefetch] and [prerender] at their [await]s and lets calls overlap. *)

From Stdlib Require Import Reals Lra Lia ZArith Sorted.
From Stdlib Require Floats.
From stdpp Require Import gmap strings list fin_maps.

Local Open Scope Z_scope.

(* ===================================================================== *)
(** ** URLs as the host's [URL] parser presents them                      *)
(* ===================================================================== *)

Module Url.

(** The components [new URL(s)] exposes for a string it accepts. *)
Record parts := mkParts {
  protocol : string;   (* "https:" *)
  hostname : string;   (* "a.com" *)
  port     : string;   (* "" when default *)
  pathname : string;   (* "/x/" *)
  search   : string;   (* "" or "?q=1" *)
  hash     : string    (* "" or "#top" *)
}.

(** A URL argument: either a string the parser accepts (given by its
    components, the string itself being [href]) or one it rejects. *)
Inductive t :=
| Parsed (u : parts)
| Unparseable (s : string).

Definition origin (u : parts) : string :=
  (protocol u +:+ "//" +:+ hostname u +:+
     (if String.eqb (port u) "" then "" else ":" +:+ port u))%string.

Definition href (u : parts) : string :=
  (origin u +:+ pathname u +:+ search u +:+ hash u)%string.

(** The string a caller passes around. *)
Definition raw (a : t) : string :=
  match a with
  | Parsed u => href u
  | Unparseable s => s
  end.

(** [String.prototype.endsWith] and [startsWith]. *)
Definition endsWith (s suffix : string) : bool :=
  let n := String.length s in
  let m := String.length suffix in
  (m <=? n)%nat && String.eqb (String.substring (n - m) m s) suffix.

Definition startsWith (s pre : string) : bool :=
  let n := String.length s in
  let m := String.length pre in
  (m <=? n)%nat && String.eqb (String.substring 0 m s) pre.

(** [path.slice(0, -1)]. *)
Definition dropLast (s : string) : string :=
  String.substring 0 (String.length s - 1) s.

End Url.

(* ===================================================================== *)
(** ** prefetcher.js                                                      *)
(* ===================================================================== *)

Module Prefetcher.

Inductive HintType := DnsPrefetch | Preconnect | Prefetch | Prerender.

#[global] Instance HintType_eq_dec : EqDecision HintType.
Proof. solve_decision. Defined.

(** Value stored in [prefetchedUrls]. *)
Record Tracked := mkTracked {
  tr_type : HintType;
  tr_timestamp : Z
}.

(** Element of [activeSpeculationRules]. *)
Record Rule := mkRule {
  r_type : HintType;
  r_url : string;
  r_timestamp : Z
}.

(** Requests sent to the page through the host. *)
Inductive HostRequest :=
| InjectSpeculationRule (ty : HintType) (url : string) (eagerness : string)
| RemoveSpeculationRule (url : string)
| InjectLinkHint (href : string) (rel : string).

Record State := mkState {
  prefetchedUrls : gmap string Tracked;
  activeSpeculationRules : list Rule;
  requests : list HostRequest
}.

(** What the host answers during one call. *)
Record Host := mkHost {
  now : Z;              (* Date.now() *)
  saveData : bool;      (* navigator.connection && navigator.connection.saveData *)
  scriptOk : bool       (* chrome.scripting.executeScript resolves *)
}.

Definition maxRules : nat := 10.

(** The constructor (before any persisted state is loaded). *)
Definition init : State := mkState ∅ [] [].

(** A call either completes or throws; mutations made before the throw
    stay in the state. *)
Inductive Outcome :=
| Completed (s : State)
| Thrown (s : State).

Definition _normalize (url : Url.t) : string :=
  match url with
  | Url.Parsed u =>
      let path := Url.pathname u in
      let path :=
        if Url.endsWith path "/" && (1 <? String.length path)%nat
        then Url.dropLast path else path in
      (Url.origin u +:+ path +:+ Url.search u)%string
  | Url.Unparseable s => s
  end.

Definition _removeOldestRule (s : State) : State :=
  match activeSpeculationRules s with
  | [] => s
  | oldest :: rest =>
      mkState (delete (r_url oldest) (prefetchedUrls s))
              rest
              (requests s ++ [RemoveSpeculationRule (r_url oldest)])
  end.

Definition eagerness (ty : HintType) : string :=
  match ty with Prerender => "moderate" | _ => "eager" end.

(** The call from its first line to its last with nothing in between:
    both [await]s settle before any other code touches the prefetcher.
    [PrefetcherAsync] has the same code cut at the [await]s. *)
Definition _addSpeculationRule (h : Host) (ty : HintType) (url : string)
    (s : State) : Outcome :=
  let s1 :=
    if (maxRules <=? length (activeSpeculationRules s))%nat
    then _removeOldestRule s else s in
  if scriptOk h then
    Completed
      (mkState (prefetchedUrls s1)
               (activeSpeculationRules s1 ++ [mkRule ty url (now h)])
               (requests s1 ++ [InjectSpeculationRule ty url (eagerness ty)]))
  else Thrown s1.

Definition _injectLinkHint (href rel : string) (s : State) : State :=
  mkState (prefetchedUrls s) (activeSpeculationRules s)
          (requests s ++ [InjectLinkHint href rel]).

Definition _track (h : Host) (url : Url.t) (ty : HintType) (s : State) : State :=
  mkState (<[_normalize url := mkTracked ty (now h)]> (prefetchedUrls s))
          (activeSpeculationRules s)
          (requests s).

Definition has (key : string) (s : State) : bool :=
  bool_decide (is_Some (prefetchedUrls s !! key)).

Definition dnsPrefetch (h : Host) (url : Url.t) (s : State) : State :=
  match url with
  | Url.Parsed u =>
      _track h url DnsPrefetch (_injectLinkHint (Url.origin u) "dns-prefetch" s)
  | Url.Unparseable _ => s
  end.

Definition preconnect (h : Host) (url : Url.t) (s : State) : State :=
  match url with
  | Url.Parsed u =>
      _track h url Preconnect (_injectLinkHint (Url.origin u) "preconnect" s)
  | Url.Unparseable _ => s
  end.

Definition prefetch (h : Host) (url : Url.t) (s : State) : State :=
  if has (Url.raw url) s then s
  else if saveData h then s
  else match _addSpeculationRule h Prefetch (Url.raw url) s with
       | Completed s' => _track h url Prefetch s'
       | Thrown s' => s'
       end.

Definition prerender (h : Host) (url : Url.t) (s : State) : State :=
  if has (Url.raw url) s then s
  else if saveData h then s
  else match _addSpeculationRule h Prerender (Url.raw url) s with
       | Completed s' => _track h url Prerender s'
       | Thrown s' => s'
       end.

Definition wasPrefetched (url : Url.t) (s : State) : bool :=
  has (_normalize url) s.

Definition getPrefetchType (url : Url.t) (s : State) : option HintType :=
  tr_type <$> prefetchedUrls s !! _normalize url.

Definition expired (nowMs maxAgeMs : Z) (d : Tracked) : bool :=
  bool_decide (maxAgeMs < nowMs - tr_timestamp d).

Definition clearOldPrefetches (nowMs : Z) (maxAgeMs : Z) (s : State) : State :=
  mkState (filter (λ kv, expired nowMs maxAgeMs kv.2 = false) (prefetchedUrls s))
          (activeSpeculationRules s)
          (requests s).

Definition defaultMaxAgeMs : Z := 60000.

(** The public calls that change a prefetcher. *)
Inductive Call :=
| CallDnsPrefetch (h : Host) (url : Url.t)
| CallPreconnect (h : Host) (url : Url.t)
| CallPrefetch (h : Host) (url : Url.t)
| CallPrerender (h : Host) (url : Url.t)
| CallClearOldPrefetches (nowMs maxAgeMs : Z).

Definition run (c : Call) (s : State) : State :=
  match c with
  | CallDnsPrefetch h url => dnsPrefetch h url s
  | CallPreconnect h url => preconnect h url s
  | CallPrefetch h url => prefetch h url s
  | CallPrerender h url => prerender h url s
  | CallClearOldPrefetches nowMs maxAgeMs => clearOldPrefetches nowMs maxAgeMs s
  end.

(** A sequence of calls, each run to completion before the next. *)
Definition runAll (cs : list Call) (s : State) : State :=
  foldl (λ acc c, run c acc) s cs.

End Prefetcher.

(* ===================================================================== *)
(** ** prefetcher.js: calls that overlap at their [await]s                *)
(* ===================================================================== *)

Module PrefetcherAsync.

Import Prefetcher.

(** A [prefetch] or [prerender] call suspended at one of its [await]s. *)
Inductive Suspended :=
| AwaitRemoval (ty : HintType) (url : Url.t) (oldest : Rule)
    (* in [_removeOldestRule]: list shifted, removal script running *)
| AwaitInjection (ty : HintType) (url : Url.t)
    (* in [_addSpeculationRule]: injection script running *)
| AwaitReturn (ty : HintType) (url : Url.t).
    (* rule pushed; the caller resumes with [_track] *)

(** [prefetch]/[prerender] from their first line to their first [await]:
    the guard on the index, the data-saver test, the length test of
    [_addSpeculationRule] and, at capacity, the [shift] of
    [_removeOldestRule]. *)
Definition start (saveData : bool) (ty : HintType) (url : Url.t) (s : State)
    : State * option Suspended :=
  if has (Url.raw url) s then (s, None)
  else if saveData then (s, None)
  else if (maxRules <=? length (activeSpeculationRules s))%nat then
    match activeSpeculationRules s with
    | [] => (s, Some (AwaitInjection ty url))
    | oldest :: rest =>
        (mkState (prefetchedUrls s) rest
                 (requests s ++ [RemoveSpeculationRule (r_url oldest)]),
         Some (AwaitRemoval ty url oldest))
    end
  else (s, Some (AwaitInjection ty url)).

(** The code that runs when the awaited promise settles, up to the next
    [await] or the end of the call. [scriptOk h] tells whether the
    injection script resolved; a failed removal is caught and ignored.
    As in [_addSpeculationRule], an injection enters the log once the
    host has carried it out. *)
Definition resume (h : Host) (k : Suspended) (s : State)
    : State * option Suspended :=
  match k with
  | AwaitRemoval ty url oldest =>
      (mkState (delete (r_url oldest) (prefetchedUrls s))
               (activeSpeculationRules s) (requests s),
       Some (AwaitInjection ty url))
  | AwaitInjection ty url =>
      if scriptOk h then
        (mkState (prefetchedUrls s)
                 (activeSpeculationRules s ++ [mkRule ty (Url.raw url) (now h)])
                 (requests s
                    ++ [InjectSpeculationRule ty (Url.raw url) (eagerness ty)]),
         Some (AwaitReturn ty url))
      else (s, None)
  | AwaitReturn ty url => (_track h url ty s, None)
  end.

(** A call that runs alone: every [await] is resumed before anything else
    touches the prefetcher. *)
Fixpoint settle (fuel : nat) (h : Host) (r : State * option Suspended) : State :=
  match r.2, fuel with
  | None, _ => r.1
  | Some k, S fuel => settle fuel h (resume h k r.1)
  | Some _, O => r.1
  end.

Definition runAlone (h : Host) (ty : HintType) (url : Url.t) (s : State) : State :=
  settle 3 h (start (saveData h) ty url s).

(** The prefetcher together with the calls in flight. *)
Record Config := mkConfig {
  state : State;
  inFlight : list Suspended
}.

Definition initial : Config := mkConfig init [].

(** The two calls that have no [await]: they run in one turn. *)
Inductive LightHint := Dns | Connect.

Definition hintType (l : LightHint) : HintType :=
  match l with Dns => DnsPrefetch | Connect => Preconnect end.

(** What the event loop runs next: a [prefetch] or [prerender] call
    starts ([ty] is its type), the [await] of the [i]-th call in flight
    settles, a light hint or [clearOldPrefetches] runs, or [_loadState]
    receives the stored state. *)
Inductive Turn :=
| Begin (saveData : bool) (ty : HintType) (url : Url.t)
| Continue (i : nat) (h : Host)
| Hint (h : Host) (l : LightHint) (url : Url.t)
| ClearOld (nowMs maxAgeMs : Z)
| Loaded (urls : gmap string Tracked) (rules : list Rule).

Definition hint (h : Host) (l : LightHint) (url : Url.t) (s : State) : State :=
  match l with
  | Dns => dnsPrefetch h url s
  | Connect => preconnect h url s
  end.

(** [_loadState] once the stored state has been read. *)
Definition _loadState (urls : gmap string Tracked) (rules : list Rule)
    (s : State) : State :=
  mkState urls rules (requests s).

Definition turn (t : Turn) (c : Config) : Config :=
  match t with
  | Begin sd ty url =>
      let r := start sd ty url (state c) in
      mkConfig r.1 (inFlight c ++ option_list r.2)
  | Continue i h =>
      match inFlight c !! i with
      | None => c
      | Some k =>
          let r := resume h k (state c) in
          mkConfig r.1
            match r.2 with
            | Some k' => <[i := k']> (inFlight c)
            | None => delete i (inFlight c)
            end
      end
  | Hint h l url => mkConfig (hint h l url (state c)) (inFlight c)
  | ClearOld nowMs maxAgeMs =>
      mkConfig (clearOldPrefetches nowMs maxAgeMs (state c)) (inFlight c)
  | Loaded urls rules => mkConfig (_loadState urls rules (state c)) (inFlight c)
  end.

Definition turns (ts : list Turn) (c : Config) : Config :=
  foldl (λ acc t, turn t acc) c ts.

(** The largest number of calls in flight at once along a run. *)
Fixpoint peakInFlight (ts : list Turn) (c : Config) : nat :=
  match ts with
  | [] => length (inFlight c)
  | t :: ts => max (length (inFlight c)) (peakInFlight ts (turn t c))
  end.

(** A suspended call that has not pushed its rule yet. *)
Definition willPush (k : Suspended) : bool :=
  match k with AwaitReturn _ _ => false | _ => true end.

(** Number of rules a turn reads from storage. *)
Definition loadedLength (t : Turn) : nat :=
  match t with Loaded _ rules => length rules | _ => 0%nat end.

(** Turns that can replace or purge the index: [_loadState] and
    [clearOldPrefetches]. *)
Definition rewritesIndex (t : Turn) : bool :=
  match t with Loaded _ _ | ClearOld _ _ => true | _ => false end.

(** Number of suspended calls that have not pushed their rule yet. *)
Definition pending (l : list Suspended) : nat :=
  sum_list_with (λ k, if willPush k then 1 else 0)%nat l.

(** The strings a suspended call still works with. *)
Definition strings (k : Suspended) : list string :=
  match k with
  | AwaitRemoval _ url oldest => [Url.raw url; r_url oldest]
  | AwaitInjection _ url | AwaitReturn _ url => [Url.raw url]
  end.

End PrefetcherAsync.

(* ===================================================================== *)
(** ** utils/trust-list.js                                                *)
(* ===================================================================== *)

Module TrustList.

Inductive Level := Trusted | Neutral | Untrusted.

#[global] Instance Level_eq_dec : EqDecision Level.
Proof. solve_decision. Defined.

Definition DEFAULT_TRUSTED : list string :=
  ["github.com"; "stackoverflow.com"; "wikipedia.org"; "youtube.com";
   "reddit.com"].

Definition KNOWN_TRACKERS : list string :=
  ["doubleclick.net"; "googlesyndication.com"; "facebook.net";
   "analytics.google.com"].

Definition BLACKLISTED : list string :=
  ["google.com"; "www.google.com"; "accounts.google.com";
   "myaccount.google.com"; "recaptcha.net"; "bankofamerica.com";
   "chase.com"; "paypal.com"].

(** [this.trustLevels]: the explicit per-domain settings. *)
Definition Settings := gmap string Level.

(** [hostname.replace(/^www\./, '')], or the argument itself when the
    parser rejects it. *)
Definition _extractDomain (url : Url.t) : string :=
  match url with
  | Url.Parsed u =>
      let hostname := Url.hostname u in
      if Url.startsWith hostname "www."
      then String.substring 4 (String.length hostname - 4) hostname
      else hostname
  | Url.Unparseable s => s
  end.

Definition matchesDomain (domain entry : string) : bool :=
  String.eqb domain entry || Url.endsWith domain ("." +:+ entry)%string.

Definition _isKnownTracker (domain : string) : bool :=
  existsb (matchesDomain domain) KNOWN_TRACKERS.

Definition _isBlacklisted (domain : string) : bool :=
  existsb (matchesDomain domain) BLACKLISTED.

Definition _isDefaultTrusted (domain : string) : bool :=
  existsb (matchesDomain domain) DEFAULT_TRUSTED.

Definition getTrustLevel (trustLevels : gmap string Level) (url : Url.t) : Level :=
  let domain := _extractDomain url in
  match trustLevels !! domain with
  | Some l => l
  | None =>
      if _isKnownTracker domain then Untrusted
      else if _isBlacklisted domain then Untrusted
      else if _isDefaultTrusted domain then Trusted
      else Neutral
  end.

Definition canPrefetch (trustLevels : gmap string Level) (url : Url.t) : bool :=
  let level := getTrustLevel trustLevels url in
  bool_decide (level = Trusted) || bool_decide (level = Neutral).

Definition canPrerender (trustLevels : gmap string Level) (url : Url.t) : bool :=
  let level := getTrustLevel trustLevels url in
  bool_decide (level = Trusted).

End TrustList.

(* ===================================================================== *)
(** ** Comparisons on JavaScript numbers                                  *)
(* ===================================================================== *)

#[global] Instance Rlt_decision (a b : R) : Decision (a < b)%R := Rlt_dec a b.
#[global] Instance Rle_decision (a b : R) : Decision (a <= b)%R := Rle_dec a b.
#[global] Instance Req_decision : EqDecision R := Req_dec_T.

(* ===================================================================== *)
(** ** context-manager.js                                                 *)
(* ===================================================================== *)

Module ContextManager.

Local Open Scope R_scope.

(** Names of the three static profiles. *)
Inductive ProfileName := Turbo | Balanced | Eco.

(** [currentMode]: one of the profile names or ['auto']. *)
Inductive Mode := Fixed (p : ProfileName) | Auto.

#[global] Instance ProfileName_eq_dec : EqDecision ProfileName.
Proof. solve_decision. Defined.
#[global] Instance Mode_eq_dec : EqDecision Mode.
Proof. solve_decision. Defined.

Record Profile := mkProfile {
  maxPrerender : nat;
  maxPrefetch : nat;
  prerenderThreshold : R;
  prefetchThreshold : R;
  preconnectThreshold : R
}.

Record Battery := mkBattery { charging : bool; level : R }.
Record Network := mkNetwork { type : string; downlink : R; saveData : bool }.
Record Memory := mkMemory { usedPercent : R }.

Record ContextData := mkContextData {
  battery : Battery;
  network : Network;
  memory : Memory
}.

Record State := mkState {
  currentMode : Mode;
  contextData : ContextData;
  _effectiveMode : option ProfileName   (* undefined until first computed *)
}.

Definition init : State :=
  mkState Auto
          (mkContextData (mkBattery true 1) (mkNetwork "wifi" 10 false)
                         (mkMemory 0.5))
          None.

(** [this.profiles]. *)
Definition profiles (p : ProfileName) : Profile :=
  match p with
  | Turbo => mkProfile 3 10 70 50 30
  | Balanced => mkProfile 1 5 80 60 40
  | Eco => mkProfile 0 2 100 85 70
  end.

Definition effectiveModeOf (c : ContextData) : ProfileName :=
  let b := battery c in
  let n := network c in
  let m := memory c in
  if (negb (charging b) && bool_decide (level b < 0.2))
     || saveData n
     || String.eqb (type n) "2g"
     || String.eqb (type n) "slow-2g"
     || bool_decide (0.8 < usedPercent m)
  then Eco
  else if charging b
          && (String.eqb (type n) "4g" || bool_decide (5 < downlink n))
          && bool_decide (usedPercent m < 0.5)
  then Turbo
  else Balanced.

Definition _recalculateMode (s : State) : State :=
  match currentMode s with
  | Auto => mkState (currentMode s) (contextData s)
                    (Some (effectiveModeOf (contextData s)))
  | Fixed _ => s
  end.

Definition withContext (c : ContextData) (s : State) : State :=
  mkState (currentMode s) c (_effectiveMode s).

(** Battery manager as the host reports it. *)
Definition _updateBattery (b : Battery) (s : State) : State :=
  let c := contextData s in
  _recalculateMode
    (withContext (mkContextData (mkBattery (charging b) (level b))
                                (network c) (memory c)) s).

(** [navigator.connection]: absent fields are [None]. *)
Record Connection := mkConnection {
  c_effectiveType : option string;
  c_downlink : option R;
  c_saveData : option bool
}.

Definition _updateNetwork (conn : Connection) (s : State) : State :=
  let c := contextData s in
  let ty := match c_effectiveType conn with
            | Some t => if String.eqb t "" then "unknown"%string else t
            | None => "unknown"%string
            end in
  let dl := match c_downlink conn with
            | Some d => if bool_decide (d = 0) then 10 else d
            | None => 10
            end in
  let sd := match c_saveData conn with Some b => b | None => false end in
  _recalculateMode
    (withContext (mkContextData (battery c) (mkNetwork ty dl sd) (memory c)) s).

(** [performance.memory], when the host has it. *)
Definition _checkMemory (mem : option (R * R)) (s : State) : State :=
  match mem with
  | Some (usedJSHeapSize, jsHeapSizeLimit) =>
      let c := contextData s in
      _recalculateMode
        (withContext (mkContextData (battery c) (network c)
                        (mkMemory (usedJSHeapSize / jsHeapSizeLimit))) s)
  | None => s
  end.

Definition parseMode (mode : string) : option Mode :=
  if String.eqb mode "turbo" then Some (Fixed Turbo)
  else if String.eqb mode "balanced" then Some (Fixed Balanced)
  else if String.eqb mode "eco" then Some (Fixed Eco)
  else if String.eqb mode "auto" then Some Auto
  else None.

Definition setMode (mode : string) (s : State) : State :=
  match parseMode mode with
  | Some m => _recalculateMode (mkState m (contextData s) (_effectiveMode s))
  | None => s
  end.

Definition currentProfileName (s : State) : ProfileName :=
  match currentMode s with
  | Auto => match _effectiveMode s with Some p => p | None => Balanced end
  | Fixed p => p
  end.

Definition getProfile (s : State) : Profile := profiles (currentProfileName s).

(** The rule of the design document for the automatic mode, in its
    words: the eco condition and the turbo condition. *)
Definition ecoCondition (c : ContextData) : Prop :=
  (charging (battery c) = false ∧ level (battery c) < 0.2)
  ∨ saveData (network c) = true
  ∨ type (network c) = "2g"%string
  ∨ type (network c) = "slow-2g"%string
  ∨ usedPercent (memory c) > 0.8.

Definition turboCondition (c : ContextData) : Prop :=
  charging (battery c) = true
  ∧ (type (network c) = "4g"%string ∨ downlink (network c) > 5)
  ∧ usedPercent (memory c) < 0.5.

(** A telemetry change as delivered by the host. *)
Inductive Telemetry :=
| BatteryChange (b : Battery)
| NetworkChange (conn : Connection)
| MemorySample (used limit : R).

Definition onTelemetry (e : Telemetry) (s : State) : State :=
  match e with
  | BatteryChange b => _updateBattery b s
  | NetworkChange conn => _updateNetwork conn s
  | MemorySample used limit => _checkMemory (Some (used, limit)) s
  end.

End ContextManager.

(* ===================================================================== *)
(** ** service-worker.js                                                  *)
(* ===================================================================== *)

Module ServiceWorker.

Local Open Scope R_scope.

(** One element of a [PREDICTION_UPDATE] message. *)
Record Link := mkLink { url : Url.t; score : R }.

Record State := mkState {
  prefetcher : Prefetcher.State;
  totalPrefetches : nat
}.

Definition init : State := mkState Prefetcher.init 0.

(** Body of the loop of [_handlePredictions]. *)
Definition handleLink (profile : ContextManager.Profile) (h : Prefetcher.Host)
    (link : Link) (s : State) : State :=
  if bool_decide (ContextManager.prerenderThreshold profile <= score link)
     && (0 <? ContextManager.maxPrerender profile)%nat
  then mkState (Prefetcher.prerender h (url link) (prefetcher s))
               (S (totalPrefetches s))
  else if bool_decide (ContextManager.prefetchThreshold profile <= score link)
          && (0 <? ContextManager.maxPrefetch profile)%nat
  then mkState (Prefetcher.prefetch h (url link) (prefetcher s))
               (S (totalPrefetches s))
  else if bool_decide (ContextManager.preconnectThreshold profile <= score link)
  then mkState (Prefetcher.preconnect h (url link) (prefetcher s))
               (totalPrefetches s)
  else if bool_decide (30 <= score link)
  then mkState (Prefetcher.dnsPrefetch h (url link) (prefetcher s))
               (totalPrefetches s)
  else s.

(** [_handlePredictions]: the links in message order; [host i] is what
    the host answers while the [i]-th link is handled. *)
Fixpoint handleFrom (profile : ContextManager.Profile)
    (host : nat → Prefetcher.Host) (i : nat) (links : list Link)
    (s : State) : State :=
  match links with
  | [] => s
  | link :: rest =>
      handleFrom profile host (S i) rest (handleLink profile (host i) link s)
  end.

Definition _handlePredictions (cm : ContextManager.State)
    (host : nat → Prefetcher.Host) (links : list Link) (s : State) : State :=
  handleFrom (ContextManager.getProfile cm) host 0 links s.

End ServiceWorker.

(* ===================================================================== *)
(** ** tracker.js                                                         *)
(* ===================================================================== *)

Module Tracker.

Local Open Scope R_scope.

(** The fields of [CursorTracker] that the queries read. *)
Record State := mkState {
  position_x : R;
  position_y : R;
  velocity_vx : R;
  velocity_vy : R
}.

Definition init : State := mkState 0 0 0 0.

(** The part of [getData()] the predictor consumes. *)
Record CursorData := mkCursorData {
  cd_x : R;
  cd_y : R;
  cd_speed : R
}.

Definition getData (t : State) : CursorData :=
  mkCursorData (position_x t) (position_y t)
               (sqrt (velocity_vx t ^ 2 + velocity_vy t ^ 2)).

(** Over the reals; [TrackerDouble.getIntentionScore] is the same
    computation on doubles. *)
Definition getIntentionScore (t : State) (targetX targetY : R) : R :=
  let dx := targetX - position_x t in
  let dy := targetY - position_y t in
  let distance := sqrt (dx * dx + dy * dy) in
  if bool_decide (distance = 0) then 1
  else
    let toTargetX := dx / distance in
    let toTargetY := dy / distance in
    let speed := sqrt (velocity_vx t ^ 2 + velocity_vy t ^ 2) in
    if bool_decide (speed = 0) then 0
    else
      let velocityX := velocity_vx t / speed in
      let velocityY := velocity_vy t / speed in
      toTargetX * velocityX + toTargetY * velocityY.

End Tracker.

(* ===================================================================== *)
(** ** tracker.js: [getIntentionScore] in double precision                *)
(* ===================================================================== *)

Module TrackerDouble.

Import Floats.
Local Open Scope float_scope.

(** The cursor state with its numbers as IEEE 754 doubles, the numbers
    of the JavaScript engine. *)
Record State := mkState {
  position_x : float;
  position_y : float;
  velocity_vx : float;
  velocity_vy : float
}.

(** [x ** 2] is computed as [x * x]. *)
Definition getIntentionScore (t : State) (targetX targetY : float) : float :=
  let dx := targetX - position_x t in
  let dy := targetY - position_y t in
  let distance := PrimFloat.sqrt (dx * dx + dy * dy) in
  if distance =? 0 then 1
  else
    let toTargetX := dx / distance in
    let toTargetY := dy / distance in
    let speed :=
      PrimFloat.sqrt (velocity_vx t * velocity_vx t
                      + velocity_vy t * velocity_vy t) in
    if speed =? 0 then 0
    else
      let velocityX := velocity_vx t / speed in
      let velocityY := velocity_vy t / speed in
      toTargetX * velocityX + toTargetY * velocityY.

End TrackerDouble.

(* ===================================================================== *)
(** ** predictor.js                                                       *)
(* ===================================================================== *)

Module Predictor.

Local Open Scope R_scope.

Definition GRACE_PERIOD_MS : R := 200.
Definition BATCH_INTERVAL_MS : R := 80.

Record Rect := mkRect {
  left : R;
  top : R;
  width : R;
  height : R
}.

(** What [_getContextScore] asks of the anchor element. *)
Record Element := mkElement {
  inMainContent : bool;   (* closest('main, article, [role=main]') *)
  inNavigation : bool;    (* closest('nav, footer, aside, [role=navigation]') *)
  liveTop : R             (* getBoundingClientRect().top *)
}.

(** Value of the [links] map. *)
Record LinkData := mkLinkData {
  element : Element;
  url : string;
  rect : Rect;
  isVisible : bool;
  score : R
}.

Record Breakdown := mkBreakdown {
  fittsScore : R;
  intentionScore : R;
  proximityScore : R;
  contextScore : R;
  historyScore : R
}.

(** Value of the [scores] map. *)
Record ScoreRecord := mkScoreRecord {
  sr_score : R;
  sr_timestamp : R;
  sr_breakdown : Breakdown
}.

(** A timeout callback waiting in the host's timer queue: it deletes
    [graceTimers[t_url]] once the clock has reached [t_deadline]. *)
Record Timeout := mkTimeout {
  t_url : string;
  t_deadline : R
}.

Record State := mkState {
  links : list LinkData;              (* in catalogue insertion order *)
  scores : gmap string ScoreRecord;
  graceTimers : gmap string Timeout;  (* URL -> timeout handle *)
  historyCache : gmap string R;
  lastBatchTime : R;
  isCharging : option bool;           (* undefined until the battery answers *)
  pendingTimeouts : list Timeout      (* host timer queue *)
}.

Definition init : State := mkState [] ∅ ∅ ∅ 0 None [].

(** Host values read during one batch. *)
Record Env := mkEnv {
  now : R;                               (* performance.now() *)
  connection : option (bool * string);   (* saveData, effectiveType *)
  hasGetBattery : bool;                  (* navigator.getBattery *)
  scrollSpeed : option R;                (* instantNavTracker.scrollSpeed *)
  innerWidth : R;
  innerHeight : R;
  tracker : Tracker.State                (* window.instantNavTracker *)
}.

(** One entry of [results]. *)
Record Result := mkResult {
  res_url : string;
  res_element : Element;
  res_score : R
}.

Definition log2 (x : R) : R := ln x / ln 2.

Definition _calculateFittsScore (distance width height : R) : R :=
  let minDimension := Rmin width height in
  if bool_decide (minDimension <= 0) then 0
  else
    let id := log2 (distance / minDimension + 1) in
    let k := 15 in
    Rmax 0 (Rmin 100 (100 - id * k)).

Definition _getContextScore (env : Env) (e : Element) : R :=
  if inMainContent e then 80
  else if inNavigation e then 30
  else
    let viewportPosition := liveTop e / innerHeight env in
    50 + (1 - viewportPosition) * 30.

Definition _getHistoryScore (s : State) (url : string) : R :=
  match historyCache s !! url with
  | Some v => v
  | None => 40
  end.

Definition withTimer (s : State) (url : string) (t : Timeout) : State :=
  mkState (links s) (scores s) (<[url := t]> (graceTimers s))
          (historyCache s) (lastBatchTime s) (isCharging s)
          (pendingTimeouts s ++ [t]).

(** Returns the boost and the state after the possible [setTimeout]. *)
Definition _getGraceBoost (env : Env) (url : string) (currentScore : R)
    (cursorData : Tracker.CursorData) (s : State) : R * State :=
  if bool_decide (Tracker.cd_speed cursorData < 50)
     && bool_decide (50 < currentScore)
  then
    match graceTimers s !! url with
    | Some _ => (0, s)
    | None =>
        match scores s !! url with
        | Some existingScore =>
            if bool_decide (currentScore < sr_score existingScore)
            then (sr_score existingScore - currentScore,
                  withTimer s url (mkTimeout url (now env + GRACE_PERIOD_MS)))
            else (0, s)
        | None => (0, s)
        end
    end
  else (0, s).

(** The two ways [_getGraceBoost] can end. *)
Inductive GraceOutcome (env : Env) (u : string) (cur : R)
    (cd : Tracker.CursorData) (s : State) : R → State → Prop :=
| grace_none : GraceOutcome env u cur cd s 0 s
| grace_started prev :
    Tracker.cd_speed cd < 50 → 50 < cur →
    graceTimers s !! u = None →
    scores s !! u = Some prev →
    cur < sr_score prev →
    GraceOutcome env u cur cd s (sr_score prev - cur)
      (withTimer s u (mkTimeout u (now env + GRACE_PERIOD_MS))).

(** The timeout callback [this.graceTimers.delete(url)] runs; the host
    queue keeps the other timeouts [remaining]. *)
Definition fireTimeout (t : Timeout) (remaining : list Timeout) (s : State) : State :=
  mkState (links s) (scores s) (delete (t_url t) (graceTimers s))
          (historyCache s) (lastBatchTime s) (isCharging s)
          remaining.

Definition currentInterval (env : Env) (s : State) : R :=
  let i := BATCH_INTERVAL_MS in
  let i := match connection env with
           | Some (saveData, effectiveType) =>
               let i := if saveData then i * 2 else i in
               if String.eqb effectiveType "slow-2g"
                  || String.eqb effectiveType "2g"
                  || String.eqb effectiveType "3g"
               then i * 1.5 else i
           | None => i
           end in
  let charging := match isCharging s with Some b => b | None => false end in
  if hasGetBattery env && negb charging then i * 1.25 else i.

Definition withScore (s : State) (url : string) (r : ScoreRecord) : State :=
  mkState (links s) (<[url := r]> (scores s)) (graceTimers s)
          (historyCache s) (lastBatchTime s) (isCharging s)
          (pendingTimeouts s).

Definition setScore (data : LinkData) (v : R) : LinkData :=
  mkLinkData (element data) (url data) (rect data) (isVisible data) v.

(** The composite score of one link before the grace boost, with its
    factor breakdown; [None] when the link is further than 500px. *)
Definition totalScoreOf (env : Env) (cursorData : Tracker.CursorData)
    (s : State) (data : LinkData) : option (R * Breakdown) :=
  let rect := rect data in
  let centerX := left rect + width rect / 2 in
  let centerY := top rect + height rect / 2 in
  let dx := centerX - Tracker.cd_x cursorData in
  let dy := centerY - Tracker.cd_y cursorData in
  let distanceSq := dx * dx + dy * dy in
  if bool_decide (250000 < distanceSq) then None
  else
    let distance := sqrt distanceSq in
    let fittsScore := _calculateFittsScore distance (width rect) (height rect) in
    let intentionRaw := Tracker.getIntentionScore (tracker env) centerX centerY in
    let intentionScore := Rmax 0 (intentionRaw * 100) in
    let maxDistance := sqrt (innerWidth env ^ 2 + innerHeight env ^ 2) in
    let proximityScore := Rmax 0 (100 - (distance / maxDistance) * 100) in
    let contextScore := _getContextScore env (element data) in
    let historyScore := _getHistoryScore s (url data) in
    let totalScore :=
      fittsScore * 0.30 + intentionScore * 0.30 + proximityScore * 0.15
      + contextScore * 0.10 + historyScore * 0.15 in
    Some (totalScore,
          mkBreakdown fittsScore intentionScore proximityScore
                      contextScore historyScore).

(** Body of the loop over [this.links]: the updated link, the state and
    the result pushed, if any. *)
Definition scoreLink (env : Env) (cursorData : Tracker.CursorData)
    (data : LinkData) (s : State) : LinkData * State * option Result :=
  if negb (isVisible data) then (data, s, None)
  else
    match totalScoreOf env cursorData s data with
    | None => (data, s, None)
    | Some (totalScore, breakdown) =>
        let '(graceBoost, s1) :=
          _getGraceBoost env (url data) totalScore cursorData s in
        let finalScore := Rmin 100 (totalScore + graceBoost) in
        let data' := setScore data finalScore in
        if bool_decide (30 < finalScore)
        then (data',
              withScore s1 (url data)
                        (mkScoreRecord finalScore (now env) breakdown),
              Some (mkResult (url data) (element data) finalScore))
        else (data', s1, None)
    end.

Fixpoint scoreLinks (env : Env) (cursorData : Tracker.CursorData)
    (ls : list LinkData) (s : State) (results : list Result)
    : list LinkData * State * list Result :=
  match ls with
  | [] => ([], s, results)
  | data :: rest =>
      let '(data', s1, r) := scoreLink env cursorData data s in
      let results1 := match r with Some x => results ++ [x] | None => results end in
      let '(rest', s2, results2) := scoreLinks env cursorData rest s1 results1 in
      (data' :: rest', s2, results2)
  end.

(** [results.sort((a, b) => b.score - a.score)]: stable, descending. *)
Fixpoint insertDesc (x : Result) (l : list Result) : list Result :=
  match l with
  | [] => [x]
  | y :: l' =>
      if bool_decide (res_score x < res_score y) then y :: insertDesc x l'
      else x :: y :: l'
  end.

Definition sortDesc (l : list Result) : list Result :=
  foldr insertDesc [] l.

(** The [PREDICTION_UPDATE] message. *)
Definition _notifyPrefetcher (topLinks : list Result) : list (string * R) :=
  map (λ l, (res_url l, res_score l)) topLinks.

Definition withLinks (s : State) (ls : list LinkData) : State :=
  mkState ls (scores s) (graceTimers s) (historyCache s)
          (lastBatchTime s) (isCharging s) (pendingTimeouts s).

Definition withLastBatchTime (s : State) (t : R) : State :=
  mkState (links s) (scores s) (graceTimers s) (historyCache s)
          t (isCharging s) (pendingTimeouts s).

Record BatchOutput := mkBatchOutput {
  returned : option (list Result);          (* [undefined] when skipped *)
  message : option (list (string * R))      (* sent to the service worker *)
}.

Definition calculateScores (env : Env) (cursorData : Tracker.CursorData)
    (s : State) : State * BatchOutput :=
  if bool_decide (now env - lastBatchTime s < currentInterval env s)
  then (s, mkBatchOutput None None)
  else
    let s0 := withLastBatchTime s (now env) in
    if match scrollSpeed env with
       | Some v => bool_decide (100 < v)
       | None => false
       end
    then (s0, mkBatchOutput None None)
    else
      let '(ls, s1, results) := scoreLinks env cursorData (links s0) s0 [] in
      let sorted := sortDesc results in
      (withLinks s1 ls,
       mkBatchOutput (Some sorted)
         (match sorted with
          | [] => None
          | _ => Some (_notifyPrefetcher (take 5 sorted))
          end)).

(** Events of the content script between which the state evolves. The
    handling of one candidate inside a batch is a step of its own, so
    that the states met in the middle of a batch are covered too. *)
Inductive step : State → State → Prop :=
| step_batch env cursorData s :
    step s (calculateScores env cursorData s).1
| step_candidate env cursorData data s :
    step s (scoreLink env cursorData data s).1.2
| step_timeout t rest1 rest2 s :
    pendingTimeouts s = rest1 ++ t :: rest2 →
    step s (fireTimeout t (rest1 ++ rest2) s)
| step_catalogue ls s :
    step s (withLinks s ls)
| step_history url v s :
    step s (mkState (links s) (scores s) (graceTimers s)
                    (<[url := v]> (historyCache s)) (lastBatchTime s)
                    (isCharging s) (pendingTimeouts s))
| step_charging b s :
    step s (mkState (links s) (scores s) (graceTimers s) (historyCache s)
                    (lastBatchTime s) (Some b) (pendingTimeouts s)).

Inductive reachable : State → Prop :=
| reachable_init : reachable init
| reachable_step s s' : reachable s → step s s' → reachable s'.

(** Every stored score is above 30 and at most 100. *)
Definition scoresInRange (s : State) : Prop :=
  ∀ u r, scores s !! u = Some r → 30 < sr_score r ∧ sr_score r <= 100.

(** The host queue holds at most one timeout per URL, and each of them
    is the handle registered in [graceTimers] under its URL. *)
Definition timersConsistent (s : State) : Prop :=
  NoDup (map t_url (pendingTimeouts s))
  ∧ ∀ t, t ∈ pendingTimeouts s → graceTimers s !! t_url t = Some t.

(** Number of timeouts waiting for a URL. *)
Definition timersFor (u : string) (s : State) : nat :=
  length (filter (λ t, t_url t = u) (pendingTimeouts s)).

End Predictor.

(* ===================================================================== *)
(** ** Concrete scenarios used by the examples below                      *)
(* ===================================================================== *)

Module Scenario.

Definition page (host path : string) : Url.t :=
  Url.Parsed (Url.mkParts "https:" host "" path "" "").

(** [https://a.com/x/]: its normal form is [https://a.com/x]. *)
Definition slashUrl : Url.t := page "a.com" "/x/".
Definition otherUrl : Url.t := page "b.org" "/y".

(** A host of a known tracker, untrusted by default. *)
Definition trackerUrl : Url.t := page "ads.doubleclick.net" "/ad".

Definition hostAt (t : Z) : Prefetcher.Host := Prefetcher.mkHost t false true.

Definition numbered (n : nat) : Url.t :=
  page "a.com" ("/p" +:+ String (Ascii.ascii_of_nat (48 + n)) "")%string.

(** Ten prefetches of ten different pages, one per second. *)
Definition tenPrefetches : list Prefetcher.Call :=
  map (λ n, Prefetcher.CallPrefetch (hostAt (1000 * Z.of_nat n)) (numbered n))
      (seq 0 10).

(** A page with one visible link, 200 by 30 pixels, centred at
    (200,115), in an 800 by 600 viewport. *)
Definition linkUrl : string := "https://a.com/x".

Definition linkIn (e : Predictor.Element) (lastScore : R) : Predictor.LinkData :=
  Predictor.mkLinkData e linkUrl (Predictor.mkRect 100 100 200 30) true lastScore.

Definition inNav : Predictor.Element := Predictor.mkElement false true 100.
Definition inMain : Predictor.Element := Predictor.mkElement true false 100.

(** A cursor at rest at [(x, 115)]. *)
Definition restingAt (x : R) : Tracker.State := Tracker.mkState x 115 0 0.

Definition envAt (t : R) (tr : Tracker.State) : Predictor.Env :=
  Predictor.mkEnv t None false None 800 600 tr.

(** One batch at time [t] with the cursor at rest at [(x, 115)]. *)
Definition batchAt (t x : R) (s : Predictor.State)
    : Predictor.State * Predictor.BatchOutput :=
  Predictor.calculateScores (envAt t (restingAt x))
    (Tracker.getData (restingAt x)) s.

Definition pageWith (e : Predictor.Element) : Predictor.State :=
  Predictor.withLinks Predictor.init [linkIn e 0].

End Scenario.

(** Calls to the prefetcher that overlap. *)
Module OverlapScenario.

Import Prefetcher PrefetcherAsync Scenario.

(** One [prefetch] that runs alone: it starts, its injection script
    resolves, and it returns to [_track]. *)
Definition alone (n : nat) : list Turn :=
  [Begin false Prefetch (numbered n);
   Continue 0 (hostAt (1000 * Z.of_nat n));
   Continue 0 (hostAt (1000 * Z.of_nat n))].

(** Nine prefetches of nine pages, one after the other. *)
Definition nineAlone : list Turn := flat_map alone (seq 0 9).

(** Two [PREDICTION_UPDATE] messages in a row, each with one link in the
    prefetch tier: the listener does not await [_handlePredictions], so
    the second [prefetch] starts while the first awaits its script. *)
Definition twoOverlapping : list Turn :=
  [Begin false Prefetch (numbered 9);
   Begin false Prefetch otherUrl;
   Continue 0 (hostAt 9000);
   Continue 1 (hostAt 9001);
   Continue 0 (hostAt 9002);
   Continue 0 (hostAt 9003)].

(** The same two calls, the second after the first has returned. *)
Definition twoInARow : list Call :=
  [CallPrefetch (hostAt 9000) (numbered 9);
   CallPrefetch (hostAt 9001) otherUrl].

(** One more [prefetch] at capacity: it evicts the oldest rule. *)
Definition oneMore : list Turn :=
  [Begin false Prefetch slashUrl;
   Continue 0 (hostAt 10000);
   Continue 0 (hostAt 10001);
   Continue 0 (hostAt 10002)].

End OverlapScenario.

(** A catalogue of six links under the cursor. *)
Module CatalogueScenario.

Import Predictor Scenario.
Local Open Scope R_scope.

(** A link at the place of the link of [Scenario], under another URL. *)
Definition linkAt (e : Element) (u : string) : LinkData :=
  mkLinkData e u (mkRect 100 100 200 30) true 0.

(** Six links, three in the navigation bar and three in the main
    content, in the order of the document. *)
Definition sixLinks : list LinkData :=
  [linkAt inNav "https://a.com/1"; linkAt inMain "https://a.com/2";
   linkAt inNav "https://a.com/3"; linkAt inMain "https://a.com/4";
   linkAt inNav "https://a.com/5"; linkAt inMain "https://a.com/6"].

Definition pageOfSix : State := withLinks init sixLinks.

End CatalogueScenario.

(* ===================================================================== *)
(** ** utils/trust-list.js: the operations that change the settings      *)
(* ===================================================================== *)

Module TrustListOps.

Import TrustList.

(** [setTrustLevel(url, level)]. *)
Definition setTrustLevel (url : Url.t) (level : Level)
    (trustLevels : gmap string Level) : gmap string Level :=
  <[_extractDomain url := level]> trustLevels.

(** [promoteIfFrequent(domain, visitCount)]: the level is looked up as
    for any URL argument, the setting is written under the argument
    string itself. *)
Definition promoteIfFrequent (domain : Url.t) (visitCount : nat)
    (trustLevels : gmap string Level) : bool * gmap string Level :=
  if (10 <=? visitCount)%nat
     && bool_decide (getTrustLevel trustLevels domain = Neutral)
  then (true, <[Url.raw domain := Trusted]> trustLevels)
  else (false, trustLevels).

(** [reset()]. *)
Definition reset (trustLevels : gmap string Level) : gmap string Level := ∅.

(** The trust selector of the popup: [trustLevels[hostname] = value] with
    the host name of the active tab, written to the same stored object
    the trust list loads. Nothing happens without a parseable tab URL. *)
Definition popupSelectTrust (tabUrl : option Url.t) (value : Level)
    (trustLevels : gmap string Level) : gmap string Level :=
  match tabUrl with
  | Some (Url.Parsed u) => <[Url.hostname u := value]> trustLevels
  | _ => trustLevels
  end.

End TrustListOps.

(* ===================================================================== *)
(** ** context-manager.js: mode changes and the status snapshot          *)
(* ===================================================================== *)

Module ContextEvents.

Import ContextManager.

(** What reaches the manager: telemetry and [SET_MODE] messages. *)
Inductive Event :=
| Telemetry (e : ContextManager.Telemetry)
| SetMode (mode : string).

Definition handle (ev : Event) (s : State) : State :=
  match ev with
  | Telemetry e => onTelemetry e s
  | SetMode mode => setMode mode s
  end.

Definition runEvents (evs : list Event) (s : State) : State :=
  foldl (λ acc ev, handle ev acc) s evs.

(** The string of a mode, as [setMode] expects it. *)
Definition modeName (m : Mode) : string :=
  match m with
  | Fixed Turbo => "turbo"
  | Fixed Balanced => "balanced"
  | Fixed Eco => "eco"
  | Auto => "auto"
  end.

(** [getStatus()]. *)
Record Status := mkStatus {
  st_mode : Mode;
  st_effectiveMode : Mode;     (* [_effectiveMode || currentMode] *)
  st_context : ContextData;
  st_profile : Profile
}.

Definition getStatus (s : State) : Status :=
  mkStatus (currentMode s)
           (match _effectiveMode s with
            | Some p => Fixed p
            | None => currentMode s
            end)
           (contextData s)
           (getProfile s).

End ContextEvents.

(* ===================================================================== *)
(** ** tracker.js: the mouse-move handler                                 *)
(* ===================================================================== *)

Module CursorTracker.

Local Open Scope R_scope.

Definition CAPTURE_INTERVAL : R := 16.

Record State := mkState {
  position : R * R;
  velocity : R * R;
  acceleration : R * R;
  direction : R;
  lastPosition : R * R;
  lastVelocity : R * R;
  lastTimestamp : R
}.

(** What [getData()] hands to the listeners. *)
Record Data := mkData {
  d_position : R * R;
  d_velocity : R * R;
  d_acceleration : R * R;
  d_direction : R;
  d_speed : R;
  d_isDecelerating : bool;
  d_timestamp : R
}.

(** The constructor, run when the clock shows [t0]. *)
Definition init (t0 : R) : State :=
  mkState (0, 0) (0, 0) (0, 0) 0 (0, 0) (0, 0) t0.

Definition _isDecelerating (s : State) : bool :=
  let currentSpeed := sqrt ((velocity s).1 ^ 2 + (velocity s).2 ^ 2) in
  let prevSpeed := sqrt ((lastVelocity s).1 ^ 2 + (lastVelocity s).2 ^ 2) in
  bool_decide (currentSpeed < prevSpeed * 0.8).

Definition getData (clock : R) (s : State) : Data :=
  mkData (position s) (velocity s) (acceleration s) (direction s)
         (sqrt ((velocity s).1 ^ 2 + (velocity s).2 ^ 2))
         (_isDecelerating s)
         clock.

Section WithAtan2.

(** [Math.atan2], provided by the host. *)
Variable atan2 : R → R → R.

(** [_onMouseMove(event)] when the clock shows [clock] ([clock'] when
    [getData] reads it again): the new state and the data every listener
    is called with, if the sample is accepted. *)
Definition _onMouseMove (clock clock' clientX clientY : R) (s : State)
    : State * option Data :=
  let dt := (clock - lastTimestamp s) / 1000 in
  if bool_decide (dt < CAPTURE_INTERVAL / 1000) then (s, None)
  else
    let position' := (clientX, clientY) in
    let velocity' := ((position'.1 - (lastPosition s).1) / dt,
                      (position'.2 - (lastPosition s).2) / dt) in
    let acceleration' := ((velocity'.1 - (lastVelocity s).1) / dt,
                          (velocity'.2 - (lastVelocity s).2) / dt) in
    let direction' := atan2 velocity'.2 velocity'.1 in
    let s' := mkState position' velocity' acceleration' direction'
                      position' velocity' clock in
    (s', Some (getData clock' s')).

End WithAtan2.

(** The fields the intention query reads. *)
Definition queryView (s : State) : Tracker.State :=
  Tracker.mkState (position s).1 (position s).2 (velocity s).1 (velocity s).2.

End CursorTracker.

(* ===================================================================== *)
(** ** service-worker.js: the whole service                               *)
(* ===================================================================== *)

Module Service.

Local Open Scope R_scope.

Record State := mkState {
  worker : ServiceWorker.State;          (* prefetcher and totalPrefetches *)
  contextManager : ContextManager.State;
  successfulPredictions : nat;
  timeSaved : R
}.

Definition init : State :=
  mkState ServiceWorker.init ContextManager.init 0 0.

(** [_trackSuccessfulPrediction(url, loadTime)]. *)
Definition _trackSuccessfulPrediction (url : Url.t) (loadTime : R) (s : State)
    : State :=
  let estimatedSavings := Rmax 0 (2000 - loadTime) in
  mkState (worker s) (contextManager s) (successfulPredictions s)
          (timeSaved s + estimatedSavings).

(** The [webNavigation.onCompleted] listener. *)
Definition onCompleted (frameId : Z) (url : Url.t) (s : State) : State :=
  if bool_decide (frameId ≠ 0%Z) then s
  else if Prefetcher.wasPrefetched url (ServiceWorker.prefetcher (worker s))
  then mkState (worker s) (contextManager s) (S (successfulPredictions s))
               (timeSaved s)
  else s.

End Service.

(* ===================================================================== *)
(** ** storage/learning-db.js: click patterns and link preferences       *)
(* ===================================================================== *)

Module LearningDB.

Local Open Scope R_scope.

Inductive Frequency := Rare | Monthly | Weekly | Daily.

(** A record of the [clickPatterns] store, keyed by [domain]. *)
Record Pattern := mkPattern {
  domain : string;
  totalClicks : nat;
  avgLoadTime : R;
  lastVisit : option Z;
  frequency : Frequency
}.

Definition _calculateFrequency (pattern : Pattern) : Frequency :=
  if (50 <=? totalClicks pattern)%nat then Daily
  else if (20 <=? totalClicks pattern)%nat then Weekly
  else if (5 <=? totalClicks pattern)%nat then Monthly
  else Rare.

(** [recordClick(url, loadTime)] at time [nowMs]; a URL the parser rejects
    is logged and nothing is stored. *)
Definition recordClick (nowMs : Z) (url : Url.t) (loadTime : R)
    (clickPatterns : gmap string Pattern) : gmap string Pattern :=
  match url with
  | Url.Parsed u =>
      let domain := Url.hostname u in
      let pattern := match clickPatterns !! domain with
                     | Some existing => existing
                     | None => mkPattern domain 0 0 None Rare
                     end in
      let totalClicks' := S (totalClicks pattern) in
      let avgLoadTime' :=
        (avgLoadTime pattern * INR (totalClicks' - 1) + loadTime)
        / INR totalClicks' in
      let updated := mkPattern (LearningDB.domain pattern) totalClicks'
                               avgLoadTime' (Some nowMs) (frequency pattern) in
      (* [db.put]: the key is the record's own [domain] field *)
      <[LearningDB.domain updated :=
          mkPattern (LearningDB.domain updated) (totalClicks updated)
                    (avgLoadTime updated) (lastVisit updated)
                    (_calculateFrequency updated)]> clickPatterns
  | Url.Unparseable _ => clickPatterns
  end.

(** A record of the [linkPreferences] store, keyed by [type]. *)
Record Preference := mkPreference {
  p_type : string;
  p_weight : R;
  p_clicks : nat
}.

(** [updateLinkPreference(type, weight)]. *)
Definition updateLinkPreference (type : string) (weight : R)
    (linkPreferences : gmap string Preference) : gmap string Preference :=
  let pref := match linkPreferences !! type with
              | Some existing => existing
              | None => mkPreference type 0.5 0
              end in
  let clicks' := S (p_clicks pref) in
  (* [db.put]: the key is the record's own [type] field *)
  <[p_type pref := mkPreference (p_type pref)
                     ((p_weight pref * INR (clicks' - 1) + weight) / INR clicks')
                     clicks']> linkPreferences.

End LearningDB.

(* ===================================================================== *)
(** * Properties of the prefetcher                                        *)
(* ===================================================================== *)

Section PrefetcherCapacity.

Import Prefetcher.

Implicit Types (s : State) (h : Host) (ty : HintType) (url : Url.t).

Lemma removeOldestRule_length s :
  length (activeSpeculationRules (_removeOldestRule s))
  = pred (length (activeSpeculationRules s)).
Proof.
  unfold _removeOldestRule. destruct (activeSpeculationRules s) eqn:E; simpl.
  - by rewrite E.
  - done.
Qed.

Lemma addSpeculationRule_bound h ty (u : string) s :
  (length (activeSpeculationRules s) ≤ maxRules)%nat →
  match _addSpeculationRule h ty u s with
  | Completed s' | Thrown s' =>
      (length (activeSpeculationRules s') ≤ maxRules)%nat
  end.
Proof.
  intros Hle. unfold _addSpeculationRule.
  destruct (Nat.leb_spec maxRules (length (activeSpeculationRules s))) as [Hfull|Hroom];
    destruct (scriptOk h); simpl;
    rewrite ?length_app, ?removeOldestRule_length; simpl;
    unfold maxRules in *; lia.
Qed.

Lemma speculation_bound h ty url s :
  (length (activeSpeculationRules s) ≤ maxRules)%nat →
  (length (activeSpeculationRules
             match _addSpeculationRule h ty (Url.raw url) s with
             | Completed s' => _track h url ty s'
             | Thrown s' => s'
             end) ≤ maxRules)%nat.
Proof.
  intros Hle. pose proof (addSpeculationRule_bound h ty (Url.raw url) s Hle) as H.
  destruct (_addSpeculationRule h ty (Url.raw url) s); simpl; exact H.
Qed.

Lemma run_bound (c : Call) s :
  (length (activeSpeculationRules s) ≤ maxRules)%nat →
  (length (activeSpeculationRules (run c s)) ≤ maxRules)%nat.
Proof.
  intros Hle. destruct c as [h url|h url|h url|h url|n m]; simpl.
  - unfold dnsPrefetch. by destruct url.
  - unfold preconnect. by destruct url.
  - unfold prefetch. destruct (has _ s); [done|].
    destruct (saveData h); [done|]. by apply speculation_bound.
  - unfold prerender. destruct (has _ s); [done|].
    destruct (saveData h); [done|]. by apply speculation_bound.
  - done.
Qed.

Lemma runAll_bound (cs : list Call) s :
  (length (activeSpeculationRules s) ≤ maxRules)%nat →
  (length (activeSpeculationRules (runAll cs s)) ≤ maxRules)%nat.
Proof.
  revert s. induction cs as [|c cs IH]; intros s Hle; simpl; [done|].
  apply IH. by apply run_bound.
Qed.

Lemma addSpeculationRule_at_capacity h ty (u : string) s :
  length (activeSpeculationRules s) = maxRules →
  scriptOk h = true →
  ∃ oldest rest s',
    activeSpeculationRules s = oldest :: rest
    ∧ _addSpeculationRule h ty u s = Completed s'
    ∧ activeSpeculationRules s' = rest ++ [mkRule ty u (now h)]
    ∧ length (activeSpeculationRules s') = maxRules.
Proof.
  intros Hlen Hok. unfold _addSpeculationRule. rewrite Hlen, Hok.
  rewrite Nat.leb_refl. unfold _removeOldestRule.
  destruct (activeSpeculationRules s) as [|oldest rest] eqn:E; [discriminate|].
  exists oldest, rest. eexists. split; [done|]. split; [done|]. simpl.
  split; [done|]. rewrite length_app. simpl in *. unfold maxRules in *. lia.
Qed.

(** Calls that do not overlap. Along every sequence of calls made on a
    fresh prefetcher, each run to completion before the next starts, the
    list of active speculation rules never holds more than 10 entries;
    and when it holds 10, an insertion that the host accepts removes
    exactly the earliest-inserted rule and appends the new one at the
    end. *)
Theorem active_rules_never_exceed_capacity (calls : list Call) :
  let s := runAll calls init in
  (length (activeSpeculationRules s) ≤ 10)%nat
  ∧ ∀ h ty (u : string),
      length (activeSpeculationRules s) = 10%nat →
      scriptOk h = true →
      ∃ oldest rest s',
        activeSpeculationRules s = oldest :: rest
        ∧ _addSpeculationRule h ty u s = Completed s'
        ∧ activeSpeculationRules s' = rest ++ [mkRule ty u (now h)]
        ∧ length (activeSpeculationRules s') = 10%nat.
Proof.
  intros s. split.
  - apply (runAll_bound calls init). simpl. unfold maxRules. lia.
  - intros h ty u Hlen Hok. by apply addSpeculationRule_at_capacity.
Qed.

Lemma active_rules_never_exceed_capacity_witness :
  ∃ oldest rest s',
    activeSpeculationRules (runAll Scenario.tenPrefetches init) = oldest :: rest
    ∧ _addSpeculationRule (Scenario.hostAt 10000) Prefetch
        (Url.raw Scenario.otherUrl) (runAll Scenario.tenPrefetches init)
      = Completed s'
    ∧ activeSpeculationRules s'
      = rest ++ [mkRule Prefetch (Url.raw Scenario.otherUrl) 10000]
    ∧ length (activeSpeculationRules s') = 10%nat.
Proof.
  apply (proj2 (active_rules_never_exceed_capacity Scenario.tenPrefetches)
           (Scenario.hostAt 10000) Prefetch (Url.raw Scenario.otherUrl));
    vm_compute; reflexivity.
Defined.

End PrefetcherCapacity.

Section PrefetcherOverlap.

Import Prefetcher PrefetcherAsync.

Implicit Types (s : State) (h : Host) (ty : HintType) (url : Url.t)
  (c : Config) (k : Suspended) (t : Turn).

Lemma runAlone_prefetch h url s : runAlone h Prefetch url s = prefetch h url s.
Proof.
  unfold runAlone, prefetch, start, _addSpeculationRule, _removeOldestRule.
  destruct (has _ s); [done|]. destruct (saveData h); [done|].
  destruct (maxRules <=? _)%nat eqn:E.
  - destruct (activeSpeculationRules s) as [|o rest] eqn:Er; simpl;
      destruct (scriptOk h); simpl; rewrite ?Er; done.
  - simpl. destruct (scriptOk h); simpl; done.
Qed.

Lemma runAlone_prerender h url s : runAlone h Prerender url s = prerender h url s.
Proof.
  unfold runAlone, prerender, start, _addSpeculationRule, _removeOldestRule.
  destruct (has _ s); [done|]. destruct (saveData h); [done|].
  destruct (maxRules <=? _)%nat eqn:E.
  - destruct (activeSpeculationRules s) as [|o rest] eqn:Er; simpl;
      destruct (scriptOk h); simpl; rewrite ?Er; done.
  - simpl. destruct (scriptOk h); simpl; done.
Qed.

Lemma pending_le (l : list Suspended) : (pending l ≤ length l)%nat.
Proof.
  unfold pending. induction l as [|k l IH]; simpl; [done|].
  destruct (willPush k); lia.
Qed.

Lemma pending_app (l1 l2 : list Suspended) :
  pending (l1 ++ l2) = (pending l1 + pending l2)%nat.
Proof. unfold pending. by rewrite sum_list_with_app. Qed.

Lemma pending_insert (l : list Suspended) (i : nat) k k' :
  l !! i = Some k →
  (pending (<[i := k']> l) + (if willPush k then 1 else 0)
   = pending l + (if willPush k' then 1 else 0))%nat.
Proof.
  unfold pending. revert i. induction l as [|x l IH]; intros [|i] H; try done.
  - injection H as ->. simpl. lia.
  - simpl in *. specialize (IH i H). lia.
Qed.

Lemma pending_delete (l : list Suspended) (i : nat) k :
  l !! i = Some k →
  (pending (delete i l) + (if willPush k then 1 else 0) = pending l)%nat.
Proof.
  unfold pending. revert i. induction l as [|x l IH]; intros [|i] H; try done.
  - injection H as ->. simpl. lia.
  - simpl in *. specialize (IH i H). lia.
Qed.

Lemma hint_rules h (l : LightHint) url s :
  activeSpeculationRules (hint h l url s) = activeSpeculationRules s.
Proof. destruct l, url; reflexivity. Qed.

Lemma peakInFlight_ge (ts : list Turn) c :
  (length (inFlight c) ≤ peakInFlight ts c)%nat.
Proof. destruct ts; simpl; lia. Qed.

(** The rules together with the pushes still to come. *)
Lemma turn_bound t c (K N : nat) :
  (length (inFlight (turn t c)) ≤ K)%nat →
  (9 + K ≤ N)%nat → (loadedLength t + K ≤ N)%nat →
  (length (activeSpeculationRules (state c)) + pending (inFlight c) ≤ N)%nat →
  (length (activeSpeculationRules (state (turn t c)))
   + pending (inFlight (turn t c)) ≤ N)%nat.
Proof.
  intros HK H9 HL HN.
  destruct t as [sd ty url|i h|h l url|n m|urls rules]; simpl in *.
  - revert HK. unfold start.
    destruct (has _ _); [simpl; rewrite app_nil_r; done|].
    destruct sd; [simpl; rewrite app_nil_r; done|].
    destruct (Nat.leb_spec maxRules (length (activeSpeculationRules (state c))))
      as [Hfull|Hroom]; unfold maxRules in *.
    + destruct (activeSpeculationRules (state c)) as [|o rest] eqn:E;
        simpl in *; [lia|].
      rewrite pending_app.
      change (pending [AwaitRemoval ty url o]) with 1%nat. lia.
    + simpl. rewrite length_app, pending_app.
      change (pending [AwaitInjection ty url]) with 1%nat.
      pose proof (pending_le (inFlight c)). simpl. lia.
  - destruct (inFlight c !! i) as [k|] eqn:Ei; [|done].
    destruct k as [ty url o|ty url|ty url]; simpl in *.
    + pose proof (pending_insert _ i _ (AwaitInjection ty url) Ei) as H.
      simpl in H. lia.
    + destruct (scriptOk h); simpl in *.
      * pose proof (pending_insert _ i _ (AwaitReturn ty url) Ei) as H.
        simpl in H. rewrite length_app. simpl. lia.
      * pose proof (pending_delete _ i _ Ei) as H. simpl in H. lia.
    + pose proof (pending_delete _ i _ Ei) as H. simpl in H. lia.
  - by rewrite hint_rules.
  - done.
  - pose proof (pending_le (inFlight c)). lia.
Qed.

Lemma turns_bound (ts : list Turn) c (K L : nat) :
  (peakInFlight ts c ≤ K)%nat →
  Forall (λ t, (loadedLength t ≤ L)%nat) ts →
  (length (activeSpeculationRules (state c)) + pending (inFlight c)
   ≤ max 9 L + K)%nat →
  (length (activeSpeculationRules (state (turns ts c)))
   + pending (inFlight (turns ts c)) ≤ max 9 L + K)%nat.
Proof.
  revert c. induction ts as [|t ts IH]; intros c Hpeak Hload Hc; simpl; [done|].
  simpl in Hpeak. inversion Hload as [|? ? Ht Hts]; subst.
  apply IH; [lia|done|].
  pose proof (peakInFlight_ge ts (turn t c)).
  apply (turn_bound t c K); [lia|lia|lia|done].
Qed.

(** C4 (failing input). Nine prefetches have left nine active rules. Two
    [PREDICTION_UPDATE] messages then arrive in a row, each with one link
    in the prefetch tier; both calls pass the length test of
    [_addSpeculationRule] before either has pushed its rule, and once the
    two injection scripts have resolved the list holds eleven rules, one
    more than [maxRules]. Run one after the other, the same two calls
    leave ten. *)
Theorem overlapping_insertions_exceed_capacity :
  let c9 := turns OverlapScenario.nineAlone initial in
  let c := turns OverlapScenario.twoOverlapping c9 in
  length (activeSpeculationRules (state c9)) = 9%nat
  ∧ inFlight c9 = []
  ∧ length (activeSpeculationRules (state c)) = 11%nat
  ∧ inFlight c = []
  ∧ length (activeSpeculationRules
              (runAll OverlapScenario.twoInARow (state c9))) = 10%nat.
Proof. vm_compute. repeat split. Qed.

(** X11. Count the [prefetch] and [prerender] calls that are in flight at
    the same time. If there are never more than [K] of them, and every
    state read back from storage holds at most [L] rules, the list of
    active rules never holds more than [max 9 L + K] entries, however
    the calls, the hints, the purge and the load interleave. Without a
    load and without overlap this is the bound of 10. *)
Theorem rules_bounded_by_calls_in_flight (ts : list Turn) (K L : nat) :
  (peakInFlight ts initial ≤ K)%nat →
  Forall (λ t, (loadedLength t ≤ L)%nat) ts →
  (length (activeSpeculationRules (state (turns ts initial))) ≤ max 9 L + K)%nat.
Proof.
  intros Hpeak Hload.
  pose proof (turns_bound ts initial K L Hpeak Hload) as H.
  simpl in H. lia.
Qed.

Lemma rules_bounded_by_calls_in_flight_witness :
  (length (activeSpeculationRules
             (state (turns (OverlapScenario.nineAlone
                              ++ OverlapScenario.twoOverlapping) initial)))
   ≤ max 9 0 + 2)%nat.
Proof.
  apply (rules_bounded_by_calls_in_flight
           (OverlapScenario.nineAlone ++ OverlapScenario.twoOverlapping) 2 0).
  - vm_compute. lia.
  - vm_compute. repeat constructor.
Defined.

Local Ltac notin :=
  rewrite ?not_elem_of_cons in *;
  repeat match goal with H : _ ∧ _ |- _ => destruct H end;
  repeat split; first [apply not_elem_of_nil | congruence | done].

(** A URL string that the index holds and that no active rule and no
    call in flight carries. *)
Lemma turn_keeps_blocked (key : string) t c :
  rewritesIndex t = false →
  has key (state c) = true →
  Forall (λ r, r_url r ≠ key) (activeSpeculationRules (state c)) →
  Forall (λ k, key ∉ strings k) (inFlight c) →
  has key (state (turn t c)) = true
  ∧ Forall (λ r, r_url r ≠ key) (activeSpeculationRules (state (turn t c)))
  ∧ Forall (λ k, key ∉ strings k) (inFlight (turn t c)).
Proof.
  intros Ht Hhas Hrules Hpool.
  assert (is_Some (prefetchedUrls (state c) !! key)) as Hkey
    by (by apply bool_decide_eq_true_1 in Hhas).
  destruct t as [sd ty url|i h|h l url|n m|urls rules]; try done; simpl.
  - unfold start. destruct (has (Url.raw url) (state c)) eqn:Hraw;
      [simpl; by rewrite app_nil_r|].
    assert (Url.raw url ≠ key) as Hne by (intros <-; congruence).
    destruct sd; [simpl; by rewrite app_nil_r|].
    destruct (maxRules <=? _)%nat.
    + destruct (activeSpeculationRules (state c)) as [|o rest] eqn:E; simpl.
      * split; [done|]. split; [by rewrite E|]. apply Forall_app.
        split; [done|]. constructor; [|done]. simpl. notin.
      * inversion Hrules as [|? ? Ho Hrest]; subst.
        split; [done|]. split; [done|]. apply Forall_app. split; [done|].
        constructor; [|done]. simpl. notin.
    + simpl. split; [done|]. split; [done|]. apply Forall_app. split; [done|].
      constructor; [|done]. simpl. notin.
  - destruct (inFlight c !! i) as [k|] eqn:Ei; [|done].
    pose proof (Forall_lookup_1 _ _ _ _ Hpool Ei) as Hk.
    destruct k as [ty url o|ty url|ty url]; simpl in *.
    + split; [|split; [done|]].
      * unfold has. simpl. apply bool_decide_eq_true_2.
        rewrite lookup_delete_ne; [done|]. apply not_elem_of_cons in Hk as [_ Hk].
        apply not_elem_of_cons in Hk as [Hk _]. done.
      * apply Forall_insert; [done|]. simpl. notin.
    + destruct (scriptOk h); simpl.
      * split; [done|]. split.
        -- apply Forall_app. split; [done|]. constructor; [|done]. simpl. notin.
        -- apply Forall_insert; [done|]. simpl. notin.
      * split; [done|]. split; [done|]. by apply Forall_delete.
    + split; [|split; [done|by apply Forall_delete]].
      unfold has. simpl. apply bool_decide_eq_true_2.
      apply lookup_insert_is_Some'. by right.
  - destruct l, url; simpl; try done.
    all: split; [|done].
    all: unfold has; simpl; apply bool_decide_eq_true_2.
    all: apply lookup_insert_is_Some'; by right.
Qed.

Lemma turns_keep_blocked (key : string) (ts : list Turn) c :
  Forall (λ t, rewritesIndex t = false) ts →
  has key (state c) = true →
  Forall (λ r, r_url r ≠ key) (activeSpeculationRules (state c)) →
  Forall (λ k, key ∉ strings k) (inFlight c) →
  has key (state (turns ts c)) = true
  ∧ Forall (λ r, r_url r ≠ key) (activeSpeculationRules (state (turns ts c))).
Proof.
  revert c. induction ts as [|t ts IH]; intros c Hts Hhas Hrules Hpool; simpl;
    [done|].
  inversion Hts as [|? ? Ht Hts']; subst.
  destruct (turn_keeps_blocked key t c Ht Hhas Hrules Hpool) as (H1 & H2 & H3).
  by apply IH.
Qed.

(** X7. A DNS or preconnect hint for a parseable URL records the URL
    under its normal form with the type of the hint, replacing the type
    recorded before, and leaves the active rules alone. When the URL is
    in normal form and no active rule and no call in flight carries it,
    the hint blocks the heavier tiers for good: however the later calls
    interleave, as long as the index is neither reloaded nor purged,
    every [prefetch] or [prerender] of that URL returns at its guard, and
    no rule for it is ever created. *)
Theorem light_hint_blocks_heavier_tiers h (l : LightHint) (u : Url.parts) c
    (ts : list Turn) :
  let url := Url.Parsed u in
  let c1 := turn (Hint h l url) c in
  (getPrefetchType url (state c1) = Some (hintType l)
   ∧ activeSpeculationRules (state c1) = activeSpeculationRules (state c)
   ∧ inFlight c1 = inFlight c)
  ∧ (Url.raw url = _normalize url →
     Forall (λ r, r_url r ≠ Url.raw url) (activeSpeculationRules (state c)) →
     Forall (λ k, Url.raw url ∉ strings k) (inFlight c) →
     Forall (λ t, rewritesIndex t = false) ts →
     let c' := turns ts c1 in
     (∀ sd ty, start sd ty url (state c') = (state c', None))
     ∧ (∀ h', prefetch h' url (state c') = state c'
              ∧ prerender h' url (state c') = state c')
     ∧ Forall (λ r, r_url r ≠ Url.raw url)
         (activeSpeculationRules (state c'))).
Proof.
  intros url c1. split.
  - subst c1. destruct l; simpl;
      unfold getPrefetchType, dnsPrefetch, preconnect, _track; simpl;
      by rewrite lookup_insert_eq.
  - intros Hn Hrules Hpool Hts c'.
    destruct (turns_keep_blocked (Url.raw url) ts c1) as [Hhas Hr]; try done.
    + subst c1. destruct l; simpl; unfold has; simpl;
        apply bool_decide_eq_true_2; simpl in Hn; rewrite Hn;
        rewrite lookup_insert_eq; eauto.
    + subst c1. simpl. by rewrite hint_rules.
    + fold c' in Hhas, Hr. split; [|split; [|done]].
      * intros sd ty. unfold start. by rewrite Hhas.
      * intros h'. unfold prefetch, prerender. by rewrite Hhas.
Qed.

Lemma light_hint_blocks_heavier_tiers_witness :
  start false Prerender Scenario.trackerUrl
    (state (turns (OverlapScenario.nineAlone ++ OverlapScenario.twoOverlapping
                     ++ OverlapScenario.oneMore)
              (turn (Hint (Scenario.hostAt 0) Dns Scenario.trackerUrl) initial)))
  = (state (turns (OverlapScenario.nineAlone ++ OverlapScenario.twoOverlapping
                     ++ OverlapScenario.oneMore)
              (turn (Hint (Scenario.hostAt 0) Dns Scenario.trackerUrl) initial)),
     None).
Proof.
  pose proof (proj2 (light_hint_blocks_heavier_tiers (Scenario.hostAt 0) Dns
                       (Url.mkParts "https:" "ads.doubleclick.net" "" "/ad" "" "")
                       initial
                       (OverlapScenario.nineAlone
                          ++ OverlapScenario.twoOverlapping
                          ++ OverlapScenario.oneMore))) as H.
  cbv zeta in H.
  apply (H eq_refl (Forall_nil_2 _) (Forall_nil_2 _)
           ltac:(vm_compute; repeat constructor)).
Defined.

End PrefetcherOverlap.

Section PrefetcherDedupAndExpiry.

Import Prefetcher.

Implicit Types (s : State) (h : Host) (ty : HintType) (url : Url.t).

Lemma has_true (key : string) s :
  has key s = true ↔ is_Some (prefetchedUrls s !! key).
Proof. unfold has. apply bool_decide_eq_true. Qed.

(** The guard of [prefetch] does make the call a no-op when the string
    it is given is itself a key of the index. *)
Lemma prefetch_noop_on_raw_key h url s :
  has (Url.raw url) s = true → prefetch h url s = s.
Proof. intros H. unfold prefetch. by rewrite H. Qed.

Lemma prerender_noop_on_raw_key h url s :
  has (Url.raw url) s = true → prerender h url s = s.
Proof. intros H. unfold prerender. by rewrite H. Qed.

(** The lighter hints have no guard: they overwrite the entry of the
    normalized URL, leave the rule list alone and keep the index size. *)
Lemma dnsPrefetch_on_tracked h url s :
  wasPrefetched url s = true →
  activeSpeculationRules (dnsPrefetch h url s) = activeSpeculationRules s
  ∧ size (prefetchedUrls (dnsPrefetch h url s)) = size (prefetchedUrls s).
Proof.
  intros H%has_true. destruct url as [u|raw]; simpl; [|done].
  split; [done|]. destruct H as [d Hd].
  rewrite <- (insert_id _ _ _ Hd) at 2.
  rewrite <- (insert_delete_eq (prefetchedUrls s)).
  rewrite <- (insert_delete_eq (prefetchedUrls s) _ d).
  rewrite !map_size_insert_None by apply lookup_delete_eq. done.
Qed.

(** Recording a directive never removes another entry. *)
Lemma track_keeps (key : string) h url ty s :
  has key s = true → has key (_track h url ty s) = true.
Proof.
  rewrite !has_true. simpl. intros [d Hd].
  destruct (decide (_normalize url = key)) as [->|Hne].
  - rewrite lookup_insert_eq. eauto.
  - rewrite lookup_insert_ne by done. eauto.
Qed.

(** The sweep itself removes what is older than the limit. *)
Lemma clearOldPrefetches_purges (nowMs maxAgeMs : Z) (key : string) d s :
  prefetchedUrls s !! key = Some d →
  (maxAgeMs < nowMs - tr_timestamp d)%Z →
  has key (clearOldPrefetches nowMs maxAgeMs s) = false.
Proof.
  intros Hd Hold. unfold has. apply bool_decide_eq_false. simpl.
  intros [d' Hd']. apply map_lookup_filter_Some in Hd' as [Hd' Hkeep].
  simpl in Hkeep. rewrite Hd in Hd'. injection Hd' as <-.
  unfold expired in Hkeep. apply bool_decide_eq_false in Hkeep. lia.
Qed.

(** C3. A second [prefetch] of [https://a.com/x/] (normal form
    [https://a.com/x]) while its directive is active is not a no-op:
    the guard looks the unnormalized string up in an index keyed by
    normalized URLs, misses, and a second rule for the same URL is
    appended to the active list. *)
Theorem repeated_prefetch_duplicates_rule :
  let s1 := prefetch (Scenario.hostAt 0) Scenario.slashUrl init in
  let s2 := prefetch (Scenario.hostAt 1000) Scenario.slashUrl s1 in
  wasPrefetched Scenario.slashUrl s1 = true
  ∧ activeSpeculationRules s1 = [mkRule Prefetch "https://a.com/x/" 0]
  ∧ activeSpeculationRules s2
    = [mkRule Prefetch "https://a.com/x/" 0;
       mkRule Prefetch "https://a.com/x/" 1000]
  ∧ requests s2
    = [InjectSpeculationRule Prefetch "https://a.com/x/" "eager";
       InjectSpeculationRule Prefetch "https://a.com/x/" "eager"].
Proof. vm_compute. done. Qed.

(** C2. A directive recorded at time 0 is still reported by
    [wasPrefetched] however late the query comes, and it survives the
    next mutation made 100 seconds later: neither the query nor the
    insertion path runs [clearOldPrefetches], which nothing calls. *)
Theorem stale_directive_still_reported :
  let s1 := prefetch (Scenario.hostAt 0) Scenario.slashUrl init in
  let s2 := prefetch (Scenario.hostAt 100000) Scenario.otherUrl s1 in
  wasPrefetched Scenario.slashUrl s1 = true
  ∧ wasPrefetched Scenario.slashUrl s2 = true
  ∧ getPrefetchType Scenario.slashUrl s2 = Some Prefetch
  ∧ activeSpeculationRules s2
    = [mkRule Prefetch "https://a.com/x/" 0;
       mkRule Prefetch "https://b.org/y" 100000]
  ∧ wasPrefetched Scenario.slashUrl
      (clearOldPrefetches 100000 defaultMaxAgeMs s2) = false.
Proof. vm_compute. done. Qed.

End PrefetcherDedupAndExpiry.

(* ===================================================================== *)
(** * Properties of the service worker                                    *)
(* ===================================================================== *)

Section ServiceWorkerTiers.

Import ServiceWorker.

(** [_handlePredictions] takes no trust decision at all: whatever the
    trust settings are, the same calls reach the prefetcher. The tier
    of a link depends on the score and the profile only. *)
Lemma handleLink_prerender_tier profile h link s :
  (ContextManager.prerenderThreshold profile <= score link)%R →
  (0 < ContextManager.maxPrerender profile)%nat →
  handleLink profile h link s
  = mkState (Prefetcher.prerender h (url link) (prefetcher s))
            (S (totalPrefetches s)).
Proof.
  intros Hs Hq. unfold handleLink.
  rewrite bool_decide_eq_true_2 by done.
  apply Nat.ltb_lt in Hq. by rewrite Hq.
Qed.

(** C1. In the default (balanced) profile a link of score 90 to a host
    of a known tracker, for which the trust list allows neither
    prerender nor prefetch, is prerendered all the same: the service
    worker never consults the trust list. *)
Theorem untrusted_link_is_prerendered :
  let s := _handlePredictions ContextManager.init (λ _, Scenario.hostAt 0)
             [mkLink Scenario.trackerUrl 90] init in
  TrustList.canPrerender ∅ Scenario.trackerUrl = false
  ∧ TrustList.canPrefetch ∅ Scenario.trackerUrl = false
  ∧ Prefetcher.requests (prefetcher s)
    = [Prefetcher.InjectSpeculationRule Prefetcher.Prerender
         "https://ads.doubleclick.net/ad" "moderate"]
  ∧ Prefetcher.getPrefetchType Scenario.trackerUrl (prefetcher s)
    = Some Prefetcher.Prerender.
Proof.
  intros s. split; [by vm_compute|]. split; [by vm_compute|].
  subst s. unfold _handlePredictions. simpl handleFrom.
  rewrite handleLink_prerender_tier.
  - by vm_compute.
  - simpl. lra.
  - simpl. lia.
Qed.

End ServiceWorkerTiers.

(* ===================================================================== *)
(** * Properties of the context manager                                   *)
(* ===================================================================== *)

Section ContextManagerAuto.

Import ContextManager.
Local Open Scope R_scope.

Implicit Types (s : State) (c : ContextData) (e : Telemetry).

Lemma effectiveModeOf_eco c :
  ecoCondition c ↔ effectiveModeOf c = Eco.
Proof.
  unfold ecoCondition, effectiveModeOf.
  destruct (charging (battery c)) eqn:Hch;
    destruct (saveData (network c)) eqn:Hsd;
    destruct (String.eqb_spec (type (network c)) "2g") as [H2g|H2g];
    destruct (String.eqb_spec (type (network c)) "slow-2g") as [Hs2g|Hs2g];
    destruct (String.eqb_spec (type (network c)) "4g") as [H4g|H4g];
    repeat case_bool_decide; simpl;
    split; intros Hx; try done; try discriminate;
    try (right; left; done); try (right; right; left; done);
    try (right; right; right; left; done);
    try (right; right; right; right; lra);
    try (left; split; [done|lra]);
    try (destruct Hx as [[? ?]|[?|[?|[?|?]]]]; try done; try lra).
Qed.

Lemma effectiveModeOf_turbo c :
  ¬ ecoCondition c →
  turboCondition c ↔ effectiveModeOf c = Turbo.
Proof.
  intros Hne. assert (effectiveModeOf c ≠ Eco) as Hm
    by (intros H; by apply Hne, effectiveModeOf_eco).
  revert Hm. unfold turboCondition, effectiveModeOf.
  match goal with |- context [if ?b then Eco else _] => destruct b end;
    [done|intros _].
  destruct (charging (battery c)) eqn:Hch;
    destruct (String.eqb_spec (type (network c)) "4g") as [H4g|H4g];
    repeat case_bool_decide; simpl;
    split; intros Hx; try done; try discriminate;
    try (split; [done|split; [by left|lra]]);
    try (split; [done|split; [right; lra|lra]]);
    try (destruct Hx as (? & [?|?] & ?); try done; try lra).
Qed.

Lemma recalculate_auto s :
  currentMode s = Auto →
  currentMode (_recalculateMode s) = Auto
  ∧ contextData (_recalculateMode s) = contextData s
  ∧ getProfile (_recalculateMode s) = profiles (effectiveModeOf (contextData s)).
Proof.
  destruct s as [m c eff]. simpl. intros ->. done.
Qed.

Lemma onTelemetry_auto e s :
  currentMode s = Auto →
  currentMode (onTelemetry e s) = Auto
  ∧ getProfile (onTelemetry e s)
    = profiles (effectiveModeOf (contextData (onTelemetry e s))).
Proof.
  intros Ha. destruct e as [b|conn|used limit]; simpl;
    unfold _updateBattery, _updateNetwork, _checkMemory;
    match goal with
    | |- context [_recalculateMode ?x] =>
        destruct (recalculate_auto x Ha) as (H1 & H2 & H3)
    end; by rewrite H3, H2.
Qed.

(** Before any telemetry arrives the profile in force is balanced. *)
Lemma init_profile_balanced : getProfile init = profiles Balanced.
Proof. reflexivity. Qed.

(** C9. In automatic mode, after every telemetry change the profile in
    force is eco when the eco condition holds on the new telemetry
    (discharging below 20%, or data saver, or a 2g or slow-2g network,
    or more than 0.8 of the memory used); otherwise turbo when the
    turbo condition holds (charging, a 4g network or a downlink above
    5, less than 0.5 of the memory used); otherwise balanced. In
    particular a battery discharging at 15% on wifi gives eco. *)
Theorem auto_mode_profile_rule :
  (∀ e s,
     currentMode s = Auto →
     let s' := onTelemetry e s in
     let c := contextData s' in
     (ecoCondition c → getProfile s' = profiles Eco)
     ∧ (¬ ecoCondition c → turboCondition c → getProfile s' = profiles Turbo)
     ∧ (¬ ecoCondition c → ¬ turboCondition c →
        getProfile s' = profiles Balanced))
  ∧ getProfile (onTelemetry (BatteryChange (mkBattery false 0.15)) init)
    = profiles Eco.
Proof.
  assert (∀ e s,
     currentMode s = Auto →
     let s' := onTelemetry e s in
     let c := contextData s' in
     (ecoCondition c → getProfile s' = profiles Eco)
     ∧ (¬ ecoCondition c → turboCondition c → getProfile s' = profiles Turbo)
     ∧ (¬ ecoCondition c → ¬ turboCondition c →
        getProfile s' = profiles Balanced)) as Hrule.
  { intros e s Ha s' c.
    destruct (onTelemetry_auto e s Ha) as [_ Hp]. fold s' in Hp. fold c in Hp.
    rewrite Hp. repeat split.
    - intros H%effectiveModeOf_eco. by rewrite H.
    - intros Hne H. apply (effectiveModeOf_turbo c Hne) in H. by rewrite H.
    - intros Hne Hnt.
      destruct (effectiveModeOf c) eqn:E; [| done |].
      + exfalso. by apply Hnt, (effectiveModeOf_turbo c Hne).
      + exfalso. by apply Hne, effectiveModeOf_eco. }
  split; [exact Hrule|].
  apply (Hrule (BatteryChange (mkBattery false 0.15)) init eq_refl).
  left. simpl. split; [done|lra].
Qed.

Lemma auto_mode_profile_rule_witness :
  currentMode init = Auto
  ∧ ecoCondition
      (contextData (onTelemetry (BatteryChange (mkBattery false 0.15)) init))
  ∧ getProfile (onTelemetry (BatteryChange (mkBattery false 0.15)) init)
    = profiles Eco.
Proof.
  assert (ecoCondition
      (contextData (onTelemetry (BatteryChange (mkBattery false 0.15)) init)))
    as Heco by (left; simpl; split; [reflexivity|lra]).
  split; [reflexivity|]. split; [exact Heco|].
  exact (proj1 (proj1 auto_mode_profile_rule
                  (BatteryChange (mkBattery false 0.15)) init eq_refl) Heco).
Defined.

End ContextManagerAuto.

(* ===================================================================== *)
(** * Properties of the cursor tracker                                    *)
(* ===================================================================== *)

Section TrackerIntention.

Import Tracker.
Local Open Scope R_scope.

Lemma norm_zero_iff (a b : R) : sqrt (a * a + b * b) = 0 ↔ a = 0 ∧ b = 0.
Proof.
  split.
  - intros H. apply sqrt_eq_0 in H; [|nra]. split; nra.
  - intros [-> ->]. replace (0 * 0 + 0 * 0) with 0 by lra. apply sqrt_0.
Qed.

Lemma getIntentionScore_on_target t :
  getIntentionScore t (position_x t) (position_y t) = 1.
Proof.
  unfold getIntentionScore.
  rewrite bool_decide_eq_true_2; [done|].
  apply norm_zero_iff. split; lra.
Qed.

Lemma getIntentionScore_off_target t x y :
  ¬ (x = position_x t ∧ y = position_y t) →
  let dx := x - position_x t in
  let dy := y - position_y t in
  let distance := sqrt (dx * dx + dy * dy) in
  let speed := sqrt (velocity_vx t ^ 2 + velocity_vy t ^ 2) in
  distance ≠ 0
  ∧ (speed = 0 → getIntentionScore t x y = 0)
  ∧ (speed ≠ 0 →
     getIntentionScore t x y
     = dx / distance * (velocity_vx t / speed)
       + dy / distance * (velocity_vy t / speed)).
Proof.
  intros Hoff dx dy distance speed.
  assert (distance ≠ 0) as Hd.
  { intros [H1 H2]%norm_zero_iff. apply Hoff. subst dx dy. split; lra. }
  split; [done|]. unfold getIntentionScore. fold dx dy distance speed.
  rewrite (bool_decide_eq_false_2 (distance = 0)) by done.
  split; intros Hs.
  - by rewrite bool_decide_eq_true_2.
  - by rewrite bool_decide_eq_false_2.
Qed.

(** C8 (amended). [getIntentionScore] returns 1 when the target is the
    current cursor position; when the target is elsewhere it returns 0
    if the current speed is zero, and otherwise the dot product of the
    unit vector toward the target and the unit velocity vector. *)
Theorem intention_score_cases t x y :
  let dx := x - position_x t in
  let dy := y - position_y t in
  let distance := sqrt (dx * dx + dy * dy) in
  let speed := sqrt (velocity_vx t ^ 2 + velocity_vy t ^ 2) in
  let r := getIntentionScore t x y in
  (x = position_x t ∧ y = position_y t → r = 1)
  ∧ (¬ (x = position_x t ∧ y = position_y t) → speed = 0 → r = 0)
  ∧ (¬ (x = position_x t ∧ y = position_y t) → speed ≠ 0 →
     r = dx / distance * (velocity_vx t / speed)
         + dy / distance * (velocity_vy t / speed)).
Proof.
  intros dx dy distance speed r.
  split; [intros [-> ->]; apply getIntentionScore_on_target|].
  split; intros Hoff; by apply (getIntentionScore_off_target t x y Hoff).
Qed.

Lemma intention_score_cases_witness :
  getIntentionScore (mkState 3 4 0 0) 3 4 = 1.
Proof.
  apply (proj1 (intention_score_cases (mkState 3 4 0 0) 3 4)).
  simpl. split; reflexivity.
Defined.

(** C8 as stated fails from right to left: a cursor at the origin moving
    along the x axis scores 1 for a target straight ahead at (100,0),
    which is not the cursor position. *)
Lemma straight_ahead_scores_one :
  getIntentionScore (mkState 0 0 10 0) 100 0 = 1
  ∧ ¬ (100 = position_x (mkState 0 0 10 0) ∧ 0 = position_y (mkState 0 0 10 0)).
Proof.
  split; [|simpl; lra].
  destruct (getIntentionScore_off_target (mkState 0 0 10 0) 100 0)
    as (Hd & _ & Hdot); [simpl; lra|]. simpl in Hd, Hdot.
  assert (sqrt ((100 - 0) * (100 - 0) + (0 - 0) * (0 - 0)) = 100) as E1.
  { replace ((100 - 0) * (100 - 0) + (0 - 0) * (0 - 0)) with (100 * 100) by lra.
    apply sqrt_square. lra. }
  assert (sqrt (10 * (10 * 1) + 0 * (0 * 1)) = 10) as E2.
  { replace (10 * (10 * 1) + 0 * (0 * 1)) with (10 * 10) by lra.
    apply sqrt_square. lra. }
  rewrite Hdot; rewrite E2; [|lra]. rewrite E1. field.
Qed.

End TrackerIntention.

Section IntentionInDoubles.

Import Floats.

(** In double precision the dot product of the two normalised vectors is
    not confined to [-1,1]: for a cursor at the origin with velocity
    (1,5) and a target at (1,5) the result is 1.0000000000000002. The
    target straight ahead at (100,0) of a cursor moving along the x axis
    scores exactly 1 in doubles as over the reals. *)
Lemma double_dot_product_exceeds_one :
  TrackerDouble.getIntentionScore (TrackerDouble.mkState 0 0 1 5) 1 5
  = 0x1.0000000000001p+0%float
  ∧ PrimFloat.ltb 1 (TrackerDouble.getIntentionScore
                       (TrackerDouble.mkState 0 0 1 5) 1 5) = true
  ∧ TrackerDouble.getIntentionScore (TrackerDouble.mkState 0 0 10 0) 100 0
    = 1%float.
Proof. vm_compute. repeat split. Qed.

End IntentionInDoubles.

(* ===================================================================== *)
(** * Properties of the link predictor                                    *)
(* ===================================================================== *)

Section PredictorInvariants.

Import Predictor.
Local Open Scope R_scope.

Implicit Types (s : State) (env : Env) (cd : Tracker.CursorData)
  (data : LinkData) (u : string).

Lemma getGraceBoost_outcome env u cur cd s :
  GraceOutcome env u cur cd s
    (_getGraceBoost env u cur cd s).1 (_getGraceBoost env u cur cd s).2.
Proof.
  unfold _getGraceBoost.
  destruct (bool_decide (Tracker.cd_speed cd < 50)) eqn:Hsp; simpl;
    [|constructor].
  destruct (bool_decide (50 < cur)) eqn:Hcur; simpl; [|constructor].
  destruct (graceTimers s !! u) eqn:Ht; [constructor|].
  destruct (scores s !! u) as [prev|] eqn:Hprev; [|constructor].
  destruct (bool_decide (cur < sr_score prev)) eqn:Hlt; [|constructor].
  apply bool_decide_eq_true in Hsp, Hcur, Hlt. simpl.
  by apply grace_started.
Qed.

(** The ways the handling of one candidate can end. *)
Lemma scoreLink_outcome env cd data s :
  scoreLink env cd data s = (data, s, None)
  ∨ ∃ total b g s1,
      isVisible data = true
      ∧ totalScoreOf env cd s data = Some (total, b)
      ∧ GraceOutcome env (url data) total cd s g s1
      ∧ ((30 < Rmin 100 (total + g)
          ∧ scoreLink env cd data s
            = (setScore data (Rmin 100 (total + g)),
               withScore s1 (url data)
                 (mkScoreRecord (Rmin 100 (total + g)) (now env) b),
               Some (mkResult (url data) (element data)
                       (Rmin 100 (total + g)))))
         ∨ (Rmin 100 (total + g) <= 30
            ∧ scoreLink env cd data s
              = (setScore data (Rmin 100 (total + g)), s1, None))).
Proof.
  unfold scoreLink. destruct (isVisible data) eqn:Hv; simpl; [|by left].
  destruct (totalScoreOf env cd s data) as [[total b]|] eqn:Ht; [|by left].
  right. pose proof (getGraceBoost_outcome env (url data) total cd s) as Hg.
  destruct (_getGraceBoost env (url data) total cd s) as [g s1]. simpl in Hg.
  exists total, b, g, s1. split; [done|]. split; [done|]. split; [done|].
  case_bool_decide as Hfin; [left|right]; (split; [lra|done]).
Qed.

Lemma withScore_inRange s u r :
  scoresInRange s → 30 < sr_score r → sr_score r <= 100 →
  scoresInRange (withScore s u r).
Proof.
  intros Hs Hlo Hhi u' r'. simpl.
  destruct (decide (u = u')) as [->|Hne].
  - rewrite lookup_insert_eq. by intros [= <-].
  - rewrite lookup_insert_ne by done. apply Hs.
Qed.

Lemma withTimer_consistent s u t :
  timersConsistent s → graceTimers s !! u = None → t_url t = u →
  timersConsistent (withTimer s u t).
Proof.
  intros [Hnd Hreg] Hfree Hu. split; simpl.
  - rewrite map_app. simpl. apply NoDup_app. split; [done|]. split.
    + intros x Hx Hin. apply list_elem_of_singleton in Hin. subst x.
      apply list_elem_of_fmap in Hx as (t' & Ht' & Hin').
      apply Hreg in Hin'. rewrite <- Ht', Hu in Hin'. congruence.
    + apply NoDup_singleton.
  - intros t' [Hin|Hin]%elem_of_app.
    + pose proof (Hreg t' Hin) as Hl.
      rewrite lookup_insert_ne; [done|]. intros ->. congruence.
    + apply list_elem_of_singleton in Hin. subst t'. rewrite Hu.
      apply lookup_insert_eq.
Qed.

Lemma graceOutcome_preserves env u cur cd s g s1 :
  GraceOutcome env u cur cd s g s1 →
  scores s1 = scores s
  ∧ (timersConsistent s → timersConsistent s1).
Proof.
  intros [|prev Hsp Hcur Hfree Hprev Hlt]; [done|]. split; [done|].
  intros Hc. by apply withTimer_consistent.
Qed.

Lemma scoreLink_preserves env cd data s :
  (scoresInRange s → scoresInRange (scoreLink env cd data s).1.2)
  ∧ (timersConsistent s → timersConsistent (scoreLink env cd data s).1.2)
  ∧ ∀ x, (scoreLink env cd data s).2 = Some x →
         30 < res_score x ∧ res_score x <= 100.
Proof.
  destruct (scoreLink_outcome env cd data s)
    as [->|(total & b & g & s1 & Hv & Ht & Hg & [[Hfin ->]|[Hfin ->]])];
    simpl.
  - done.
  - destruct (graceOutcome_preserves _ _ _ _ _ _ _ Hg) as [Hsc Htm].
    assert (Rmin 100 (total + g) <= 100) as Hhi by apply Rmin_l.
    split; [|split].
    + intros Hs. apply withScore_inRange; [|done|done].
      intros u r. rewrite Hsc. apply Hs.
    + intros Hc. apply Htm in Hc. exact Hc.
    + intros x [= <-]. simpl. done.
  - destruct (graceOutcome_preserves _ _ _ _ _ _ _ Hg) as [Hsc Htm].
    split; [|split]; [|done|done].
    intros Hs u r. rewrite Hsc. apply Hs.
Qed.

Lemma scoreLinks_preserves env cd (ls : list LinkData) s (results : list Result) :
  let out := scoreLinks env cd ls s results in
  (scoresInRange s → scoresInRange out.1.2)
  ∧ (timersConsistent s → timersConsistent out.1.2)
  ∧ (Forall (λ x, 30 < res_score x ∧ res_score x <= 100) results →
     Forall (λ x, 30 < res_score x ∧ res_score x <= 100) out.2).
Proof.
  revert s results. induction ls as [|data rest IH]; intros s results; simpl.
  - done.
  - destruct (scoreLink_preserves env cd data s) as (H1 & H2 & H3).
    destruct (scoreLink env cd data s) as [[data' s1] r]. simpl in *.
    set (results1 := match r with Some x => results ++ [x] | None => results end).
    specialize (IH s1 results1).
    destruct (scoreLinks env cd rest s1 results1) as [[rest' s2] results2].
    simpl in *. destruct IH as (I1 & I2 & I3).
    split; [tauto|]. split; [tauto|].
    intros Hres. apply I3. subst results1. destruct r as [x|]; [|done].
    apply Forall_app. split; [done|]. apply Forall_singleton. by apply H3.
Qed.

Lemma insertDesc_Forall (P : Result → Prop) x l :
  P x → Forall P l → Forall P (insertDesc x l).
Proof.
  intros Hx. induction 1 as [|y l Hy Hl IH]; simpl.
  - by apply Forall_singleton.
  - case_bool_decide; repeat constructor; done.
Qed.

Lemma sortDesc_Forall (P : Result → Prop) l :
  Forall P l → Forall P (sortDesc l).
Proof.
  unfold sortDesc. induction 1; simpl; [constructor|].
  by apply insertDesc_Forall.
Qed.

Lemma notifyPrefetcher_Forall (l : list Result) :
  Forall (λ x, 30 < res_score x ∧ res_score x <= 100) l →
  Forall (λ p : string * R, 30 < p.2 ∧ p.2 <= 100)
         (_notifyPrefetcher (take 5 l)).
Proof.
  intros Hl. unfold _notifyPrefetcher. apply Forall_fmap.
  apply Forall_take. exact Hl.
Qed.

Lemma calculateScores_preserves env cd s :
  (scoresInRange s → scoresInRange (calculateScores env cd s).1)
  ∧ (timersConsistent s → timersConsistent (calculateScores env cd s).1)
  ∧ (∀ results, returned (calculateScores env cd s).2 = Some results →
       Forall (λ x, 30 < res_score x ∧ res_score x <= 100) results)
  ∧ (∀ msg, message (calculateScores env cd s).2 = Some msg →
       Forall (λ p, 30 < p.2 ∧ p.2 <= 100) msg).
Proof.
  unfold calculateScores. case_bool_decide; [done|].
  destruct (match scrollSpeed env with
            | Some v => bool_decide (100 < v) | None => false end); [done|].
  destruct (scoreLinks_preserves env cd (links (withLastBatchTime s (now env)))
              (withLastBatchTime s (now env)) []) as (H1 & H2 & H3).
  destruct (scoreLinks env cd (links (withLastBatchTime s (now env)))
              (withLastBatchTime s (now env)) []) as [[ls s1] results].
  simpl in *. specialize (H3 (Forall_nil_2 _)).
  apply (sortDesc_Forall _ _) in H3.
  split; [done|]. split; [done|]. split.
  - by intros ? [= <-].
  - intros msg. destruct (sortDesc results) as [|x l] eqn:E; [done|].
    intros [= <-]. by apply (notifyPrefetcher_Forall (x :: l)).
Qed.

Lemma step_preserves s s' :
  step s s' →
  (scoresInRange s → scoresInRange s')
  ∧ (timersConsistent s → timersConsistent s').
Proof.
  destruct 1 as [env cd s|env cd data s|t rest1 rest2 s Hq|ls s|u v s|b s];
    try done.
  - destruct (calculateScores_preserves env cd s) as (H1 & H2 & _). done.
  - destruct (scoreLink_preserves env cd data s) as (H1 & H2 & _). done.
  - split; [done|]. intros [Hnd Hreg]. rewrite Hq in Hnd, Hreg.
    rewrite map_app in Hnd. simpl in Hnd.
    apply NoDup_app in Hnd as (Hnd1 & Hdis & Hnd2).
    apply NoDup_cons in Hnd2 as [Hnot Hnd2].
    split; simpl.
    + rewrite map_app. apply NoDup_app. split; [done|]. split; [|done].
      intros x Hx Hin. apply (Hdis x Hx). by right.
    + intros t' Hin. rewrite lookup_delete_ne.
      * apply Hreg. apply elem_of_app in Hin as [Hin|Hin];
          apply elem_of_app; [by left|right; by right].
      * intros Heq. apply elem_of_app in Hin as [Hin|Hin].
        -- apply (Hdis (t_url t')).
           ++ apply list_elem_of_fmap. eauto.
           ++ rewrite <- Heq. by left.
        -- apply Hnot. rewrite Heq. apply list_elem_of_fmap. eauto.
Qed.

Lemma reachable_invariants s :
  reachable s → scoresInRange s ∧ timersConsistent s.
Proof.
  induction 1 as [|s s' Hr [IH1 IH2] Hstep].
  - split.
    + intros u r. simpl. by rewrite lookup_empty.
    + split; simpl; [constructor|]. intros t Hin. by apply elem_of_nil in Hin.
  - destruct (step_preserves s s' Hstep). split; auto.
Qed.

End PredictorInvariants.

Section PredictorScenario.

Import Predictor Scenario.
Local Open Scope R_scope.

Lemma sqrt_of_square (x y : R) : 0 <= y → x = y * y → sqrt x = y.
Proof. intros Hy ->. by apply sqrt_square. Qed.

Lemma log2_pow2 (x : R) (k : nat) : x = 2 ^ k → log2 x = INR k.
Proof.
  intros ->. unfold log2. rewrite ln_pow by lra.
  assert (0 < ln 2) by (rewrite <- ln_1; apply ln_increasing; lra).
  field. lra.
Qed.

Lemma fittsScore_pow2 (d w h : R) (k : nat) :
  0 < Rmin w h → d / Rmin w h + 1 = 2 ^ k → (k <= 6)%nat →
  _calculateFittsScore d w h = 100 - INR k * 15.
Proof.
  intros Hm Hk Hle. unfold _calculateFittsScore.
  rewrite bool_decide_eq_false_2 by lra.
  rewrite (log2_pow2 _ k Hk).
  assert (0 <= INR k <= 6) as [H0 H6].
  { split; [apply pos_INR|]. apply le_INR in Hle. simpl in Hle. lra. }
  rewrite Rmin_right by lra. rewrite Rmax_right by lra. done.
Qed.

Lemma intention_resting (x : R) :
  Tracker.getIntentionScore (restingAt x) (100 + 200 / 2) (100 + 30 / 2)
  = if bool_decide (x = 200) then 1 else 0.
Proof.
  case_bool_decide as Hx.
  - subst x.
    replace (100 + 200 / 2) with (Tracker.position_x (restingAt 200)) by (simpl; lra).
    replace (100 + 30 / 2) with (Tracker.position_y (restingAt 200)) by (simpl; lra).
    apply getIntentionScore_on_target.
  - destruct (getIntentionScore_off_target (restingAt x)
                (100 + 200 / 2) (100 + 30 / 2)) as (_ & H0 & _).
    + simpl. intros [H1 _]. lra.
    + apply H0. simpl. apply sqrt_of_square; lra.
Qed.

(** The composite score of the link of the scenario for a cursor at rest
    at distance [d] with [d / 30 + 1 = 2 ^ k]. *)
Lemma totalScoreOf_resting e (sc t x d : R) (k : nat) s :
  0 <= d → d * d = (200 - x) * (200 - x) → d <= 500 →
  d / 30 + 1 = 2 ^ k → (k <= 6)%nat →
  historyCache s !! linkUrl = None →
  totalScoreOf (envAt t (restingAt x))
    (Tracker.getData (restingAt x)) s (linkIn e sc)
  = Some ((100 - INR k * 15) * 0.30
          + (if bool_decide (x = 200) then 100 else 0) * 0.30
          + (100 - d / 1000 * 100) * 0.15
          + _getContextScore (envAt t (restingAt x)) e * 0.10
          + 40 * 0.15,
          mkBreakdown (100 - INR k * 15)
            (if bool_decide (x = 200) then 100 else 0)
            (100 - d / 1000 * 100)
            (_getContextScore (envAt t (restingAt x)) e) 40).
Proof.
  intros Hd Hdd H500 Hk Hle Hh. unfold totalScoreOf. simpl.
  assert ((100 + 200 / 2 - x) * (100 + 200 / 2 - x)
          + (100 + 30 / 2 - 115) * (100 + 30 / 2 - 115) = d * d) as -> by lra.
  rewrite bool_decide_eq_false_2 by nra. simpl.
  rewrite (sqrt_square d Hd).
  assert (sqrt (800 * (800 * 1) + 600 * (600 * 1)) = 1000) as ->
    by (apply sqrt_of_square; lra).
  assert (Rmin 200 30 = 30) as Hmin by (apply Rmin_right; lra).
  rewrite (fittsScore_pow2 d 200 30 k) by (rewrite ?Hmin; done || lra).
  rewrite intention_resting.
  unfold _getHistoryScore. simpl. rewrite Hh.
  assert (Rmax 0 ((if bool_decide (x = 200) then 1 else 0) * 100)
          = if bool_decide (x = 200) then 100 else 0) as ->.
  { case_bool_decide; [rewrite Rmax_right by lra|rewrite Rmax_left by lra]; lra. }
  rewrite (Rmax_right 0 (100 - d / 1000 * 100)) by lra.
  done.
Qed.

Lemma getGraceBoost_low env u (cur : R) cd s :
  cur <= 50 → _getGraceBoost env u cur cd s = (0, s).
Proof.
  intros H. unfold _getGraceBoost.
  rewrite (bool_decide_eq_false_2 (50 < cur)) by lra.
  by rewrite andb_false_r.
Qed.

Lemma getGraceBoost_fresh env u (cur : R) cd s :
  scores s !! u = None → _getGraceBoost env u cur cd s = (0, s).
Proof.
  intros H. unfold _getGraceBoost. rewrite H.
  destruct (_ && _); [|done]. by destruct (graceTimers s !! u).
Qed.

Lemma getGraceBoost_start env u (cur : R) cd s prev :
  Tracker.cd_speed cd < 50 → 50 < cur →
  graceTimers s !! u = None → scores s !! u = Some prev →
  cur < sr_score prev →
  _getGraceBoost env u cur cd s
  = (sr_score prev - cur,
     withTimer s u (mkTimeout u (now env + GRACE_PERIOD_MS))).
Proof.
  intros H1 H2 H3 H4 H5. unfold _getGraceBoost.
  rewrite !bool_decide_eq_true_2 by done. simpl. rewrite H3, H4.
  by rewrite bool_decide_eq_true_2.
Qed.

Lemma scoreLink_scored env cd data s total b g s1 :
  isVisible data = true →
  totalScoreOf env cd s data = Some (total, b) →
  _getGraceBoost env (url data) total cd s = (g, s1) →
  scoreLink env cd data s
  = if bool_decide (30 < Rmin 100 (total + g))
    then (setScore data (Rmin 100 (total + g)),
          withScore s1 (url data)
            (mkScoreRecord (Rmin 100 (total + g)) (now env) b),
          Some (mkResult (url data) (element data) (Rmin 100 (total + g))))
    else (setScore data (Rmin 100 (total + g)), s1, None).
Proof.
  intros Hv Ht Hg. unfold scoreLink. rewrite Hv, Ht. simpl. by rewrite Hg.
Qed.

(** A batch over a catalogue of one link. *)
Lemma calculateScores_single env cd s data :
  links s = [data] →
  currentInterval env s <= now env - lastBatchTime s →
  scrollSpeed env = None →
  calculateScores env cd s
  = let '(data', s1, r) :=
      scoreLink env cd data (withLastBatchTime s (now env)) in
    (withLinks s1 [data'],
     mkBatchOutput
       (Some (match r with Some x => [x] | None => [] end))
       (match r with
        | Some x => Some [(res_url x, res_score x)]
        | None => None
        end)).
Proof.
  intros Hl Ht Hs. unfold calculateScores.
  rewrite bool_decide_eq_false_2 by lra. rewrite Hs. simpl links. rewrite Hl.
  simpl scoreLinks.
  destruct (scoreLink env cd data (withLastBatchTime s (now env)))
    as [[data' s1] [x|]]; reflexivity.
Qed.

Lemma scenario_interval t x s : currentInterval (envAt t (restingAt x)) s = 80.
Proof. reflexivity. Qed.

(** First batch: the cursor rests on the centre of the link. *)
Lemma first_batch e (c : R) :
  (∀ env, _getContextScore env e = c) → 0 <= c <= 100 →
  (batchAt 1000 200 (pageWith e)).1
  = withLinks
      (withScore (withLastBatchTime (pageWith e) 1000) linkUrl
         (mkScoreRecord (81 + c * 0.10) 1000 (mkBreakdown 100 100 100 c 40)))
      [linkIn e (81 + c * 0.10)].
Proof.
  intros Hctx Hc. unfold batchAt.
  rewrite (calculateScores_single _ _ _ (linkIn e 0));
    [|done|rewrite scenario_interval; simpl; lra|done].
  pose proof (totalScoreOf_resting e 0 1000 200 0 0%nat
                (withLastBatchTime (pageWith e) 1000)) as Ht.
  specialize (Ht ltac:(lra) ltac:(lra) ltac:(lra) ltac:(simpl; lra)
                 ltac:(lia) ltac:(done)).
  erewrite scoreLink_scored;
    [|reflexivity|exact Ht|by apply getGraceBoost_fresh].
  rewrite (bool_decide_eq_true_2 (200 = 200)) by done. simpl INR.
  rewrite Hctx.
  assert ((100 - 0 * 15) * 0.30 + 100 * 0.30 + (100 - 0 / 1000 * 100) * 0.15
          + c * 0.10 + 40 * 0.15 + 0 = 81 + c * 0.10) as -> by lra.
  rewrite Rmin_right by lra. rewrite bool_decide_eq_true_2 by lra.
  simpl. unfold linkIn, setScore. simpl.
  replace (100 - 0 * 15) with 100 by lra.
  replace (100 - 0 / 1000 * 100) with 100 by lra. done.
Qed.

End PredictorScenario.

Section PredictorTable.

Import Predictor Scenario.
Local Open Scope R_scope.

Implicit Types (s : State) (env : Env) (cd : Tracker.CursorData)
  (data : LinkData) (u : string).

Lemma scoreLink_scores_frame env cd data s u r :
  scores (scoreLink env cd data s).1.2 !! u = Some r →
  scores s !! u = Some r ∨ (30 < sr_score r ∧ sr_timestamp r = now env).
Proof.
  destruct (scoreLink_outcome env cd data s)
    as [->|(total & b & g & s1 & Hv & Ht & Hg & [[Hfin ->]|[Hfin ->]])];
    simpl; [by left| |].
  - destruct (graceOutcome_preserves _ _ _ _ _ _ _ Hg) as [-> _].
    destruct (decide (url data = u)) as [->|Hne].
    + rewrite lookup_insert_eq. intros [= <-]. right. done.
    + rewrite lookup_insert_ne by done. by left.
  - destruct (graceOutcome_preserves _ _ _ _ _ _ _ Hg) as [-> _]. by left.
Qed.

Lemma scoreLinks_scores_frame env cd (ls : list LinkData) s results u r :
  scores (scoreLinks env cd ls s results).1.2 !! u = Some r →
  scores s !! u = Some r ∨ (30 < sr_score r ∧ sr_timestamp r = now env).
Proof.
  revert s results. induction ls as [|data rest IH]; intros s results; simpl.
  - by left.
  - pose proof (scoreLink_scores_frame env cd data s u r) as H1.
    destruct (scoreLink env cd data s) as [[data' s1] x]. simpl in H1.
    set (results1 := match x with Some y => results ++ [y] | None => results end).
    specialize (IH s1 results1).
    destruct (scoreLinks env cd rest s1 results1) as [[rest' s2] results2].
    simpl in *. intros H. destruct (IH H) as [H'|H']; [by apply H1|by right].
Qed.

Lemma calculateScores_scores_frame env cd s u r :
  scores (calculateScores env cd s).1 !! u = Some r →
  scores s !! u = Some r ∨ (30 < sr_score r ∧ sr_timestamp r = now env).
Proof.
  unfold calculateScores. case_bool_decide; [by left|].
  destruct (match scrollSpeed env with
            | Some v => bool_decide (100 < v) | None => false end); [by left|].
  pose proof (scoreLinks_scores_frame env cd
                (links (withLastBatchTime s (now env)))
                (withLastBatchTime s (now env)) [] u r) as H1.
  destruct (scoreLinks env cd (links (withLastBatchTime s (now env)))
              (withLastBatchTime s (now env)) []) as [[ls s1] results].
  simpl in *. exact H1.
Qed.

(** C5 (amended). A candidate whose final score is at most 30 writes
    nothing to the score table and yields no result; one whose final
    score is above 30 is recorded under its URL and pushed to the
    results. Hence every record a batch writes and every result it
    returns has a score above 30, and every other record of the table
    is the one that was there before the batch. *)
Theorem only_scores_above_30_are_recorded :
  (∀ env cd data s total b,
     isVisible data = true →
     totalScoreOf env cd s data = Some (total, b) →
     let final :=
       Rmin 100 (total + (_getGraceBoost env (url data) total cd s).1) in
     let out := scoreLink env cd data s in
     score out.1.1 = final
     ∧ (final <= 30 → scores out.1.2 = scores s ∧ out.2 = None)
     ∧ (30 < final →
        scores out.1.2
        = <[url data := mkScoreRecord final (now env) b]> (scores s)
        ∧ out.2 = Some (mkResult (url data) (element data) final)))
  ∧ (∀ env cd s u r,
       scores (calculateScores env cd s).1 !! u = Some r →
       scores s !! u = Some r
       ∨ (30 < sr_score r ∧ sr_timestamp r = now env))
  ∧ (∀ env cd s results,
       returned (calculateScores env cd s).2 = Some results →
       Forall (λ x, 30 < res_score x) results).
Proof.
  split; [|split].
  - intros env cd data s total b Hv Ht final out. subst out final.
    pose proof (getGraceBoost_outcome env (url data) total cd s) as Hg.
    destruct (_getGraceBoost env (url data) total cd s) as [g s1] eqn:Eg.
    simpl in Hg. destruct (graceOutcome_preserves _ _ _ _ _ _ _ Hg) as [Hsc _].
    rewrite (scoreLink_scored env cd data s total b g s1 Hv Ht Eg). simpl.
    case_bool_decide as Hfin; simpl.
    + split; [done|]. split; [lra|]. intros _. by rewrite Hsc.
    + split; [done|]. split; [|lra]. intros _. done.
  - intros env cd s u r. apply calculateScores_scores_frame.
  - intros env cd s results Hres.
    destruct (calculateScores_preserves env cd s) as (_ & _ & H & _).
    eapply Forall_impl; [by apply H|]. simpl. intros x [Hx _]. exact Hx.
Qed.

Lemma inNav_context env : _getContextScore env inNav = 30.
Proof. reflexivity. Qed.

Lemma inMain_context env : _getContextScore env inMain = 80.
Proof. reflexivity. Qed.

(** Second batch of the scenario, one second later, the cursor at rest
    450 pixels to the right of the link in the navigation region: the
    composite score is 29.25. *)
Lemma far_candidate_total (sc : R) s :
  historyCache s !! linkUrl = None →
  totalScoreOf (envAt 2000 (restingAt 650))
    (Tracker.getData (restingAt 650)) s (linkIn inNav sc)
  = Some (29.25, mkBreakdown 40 0 55 30 40).
Proof.
  intros Hh.
  rewrite (totalScoreOf_resting inNav sc 2000 650 450 4 s);
    [|lra|lra|lra|simpl; lra|lia|done].
  rewrite (bool_decide_eq_false_2 (650 = 200)) by lra.
  rewrite inNav_context. simpl INR.
  f_equal. f_equal; [lra|]. f_equal; lra.
Qed.

Lemma only_scores_above_30_are_recorded_witness :
  scores (scoreLink (envAt 2000 (restingAt 650))
            (Tracker.getData (restingAt 650)) (linkIn inNav 84)
            (withLastBatchTime (batchAt 1000 200 (pageWith inNav)).1 2000)).1.2
  = scores (withLastBatchTime (batchAt 1000 200 (pageWith inNav)).1 2000)
  ∧ (scoreLink (envAt 2000 (restingAt 650))
       (Tracker.getData (restingAt 650)) (linkIn inNav 84)
       (withLastBatchTime (batchAt 1000 200 (pageWith inNav)).1 2000)).2
    = None.
Proof.
  set (s := withLastBatchTime (batchAt 1000 200 (pageWith inNav)).1 2000).
  assert (historyCache s !! linkUrl = None) as Hh.
  { subst s. rewrite (first_batch inNav 30) by (done || lra). done. }
  pose proof (proj1 only_scores_above_30_are_recorded
                (envAt 2000 (restingAt 650)) (Tracker.getData (restingAt 650))
                (linkIn inNav 84) s 29.25 (mkBreakdown 40 0 55 30 40)
                eq_refl (far_candidate_total 84 s Hh)) as (_ & Hlow & _).
  apply Hlow. rewrite getGraceBoost_low by lra. simpl.
  rewrite Rmin_right by lra. lra.
Defined.

(** C5 as stated fails: the link is recorded with score 84 by a first
    batch; in the next batch its final score is 29.25, at most 30, and
    after that batch the table still holds the record of the first
    batch under its URL. *)
Lemma low_score_candidate_keeps_record :
  let s1 := (batchAt 1000 200 (pageWith inNav)).1 in
  let out := batchAt 2000 650 s1 in
  ∃ data r,
    links out.1 = [data] ∧ url data = linkUrl ∧ score data <= 30
    ∧ returned out.2 = Some []
    ∧ scores out.1 !! linkUrl = Some r
    ∧ sr_score r = 84 ∧ sr_timestamp r = 1000.
Proof.
  intros s1 out. subst out s1.
  rewrite (first_batch inNav 30) by (done || lra).
  unfold batchAt.
  rewrite (calculateScores_single _ _ _ (linkIn inNav (81 + 30 * 0.10)));
    [|done|rewrite scenario_interval; simpl; lra|done].
  erewrite scoreLink_scored;
    [|reflexivity|by apply far_candidate_total
     |apply getGraceBoost_low; lra].
  assert (Rmin 100 (29.25 + 0) = 29.25) as -> by (rewrite Rmin_right; lra).
  rewrite bool_decide_eq_false_2 by lra.
  eexists _, _. simpl.
  split; [reflexivity|]. split; [reflexivity|].
  split; [simpl; lra|].
  split; [reflexivity|].
  split; [apply lookup_insert_eq|]. simpl. split; lra.
Qed.

(** C7. In every state the predictor reaches, every score stored in the
    score table is at least 0 and at most 100, and so is every score a
    batch run from that state returns or sends to the service worker. *)
Theorem composite_scores_within_0_100 s :
  reachable s →
  (∀ u r, scores s !! u = Some r → 0 <= sr_score r ∧ sr_score r <= 100)
  ∧ ∀ env cd,
      (∀ results, returned (calculateScores env cd s).2 = Some results →
         Forall (λ x, 0 <= res_score x ∧ res_score x <= 100) results)
      ∧ (∀ msg, message (calculateScores env cd s).2 = Some msg →
           Forall (λ p : string * R, 0 <= p.2 ∧ p.2 <= 100) msg).
Proof.
  intros [Hs _]%reachable_invariants. split.
  - intros u r Hr. destruct (Hs u r Hr). lra.
  - intros env cd.
    destruct (calculateScores_preserves env cd s) as (_ & _ & H1 & H2).
    split.
    + intros results Hres. eapply Forall_impl; [by apply H1|].
      simpl. intros x [? ?]. lra.
    + intros msg Hmsg. eapply Forall_impl; [by apply H2|].
      simpl. intros p [? ?]. lra.
Qed.

Lemma first_batch_reachable e : reachable (batchAt 1000 200 (pageWith e)).1.
Proof.
  eapply reachable_step; [|apply step_batch].
  eapply reachable_step; [apply reachable_init|apply step_catalogue].
Qed.

Lemma composite_scores_within_0_100_witness :
  scores (batchAt 1000 200 (pageWith inMain)).1 !! linkUrl
  = Some (mkScoreRecord (81 + 80 * 0.10) 1000 (mkBreakdown 100 100 100 80 40))
  ∧ 0 <= 81 + 80 * 0.10 ∧ 81 + 80 * 0.10 <= 100.
Proof.
  assert (scores (batchAt 1000 200 (pageWith inMain)).1 !! linkUrl
          = Some (mkScoreRecord (81 + 80 * 0.10) 1000
                    (mkBreakdown 100 100 100 80 40))) as Hrec.
  { rewrite (first_batch inMain 80) by (done || lra). apply lookup_insert_eq. }
  split; [exact Hrec|].
  exact (proj1 (composite_scores_within_0_100 _ (first_batch_reachable inMain))
           linkUrl _ Hrec).
Defined.

(** C10. When the grace boost applied to a candidate is not zero, the
    boost is the previously stored score minus the new composite score,
    and the final score, the one written to the link, to the score
    table and to the results, is exactly the previously stored score:
    the clamp at 100 leaves it alone because stored scores never
    exceed 100. *)
Theorem grace_boost_restores_previous_score env cd data s total b :
  reachable s →
  isVisible data = true →
  totalScoreOf env cd s data = Some (total, b) →
  (_getGraceBoost env (url data) total cd s).1 ≠ 0 →
  ∃ prev,
    scores s !! url data = Some prev
    ∧ (_getGraceBoost env (url data) total cd s).1 = sr_score prev - total
    ∧ score (scoreLink env cd data s).1.1 = sr_score prev
    ∧ sr_score <$> scores (scoreLink env cd data s).1.2 !! url data
      = Some (sr_score prev)
    ∧ res_score <$> (scoreLink env cd data s).2 = Some (sr_score prev).
Proof.
  intros [Hs _]%reachable_invariants Hv Ht Hboost.
  pose proof (getGraceBoost_outcome env (url data) total cd s) as Hg.
  destruct (_getGraceBoost env (url data) total cd s) as [g s1] eqn:Eg.
  simpl in *. destruct Hg as [|prev Hsp Hcur Hfree Hprev Hlt]; [done|].
  exists prev. destruct (Hs _ _ Hprev) as [_ Hhi].
  rewrite (scoreLink_scored env cd data s total b _ _ Hv Ht Eg).
  assert (Rmin 100 (total + (sr_score prev - total)) = sr_score prev) as ->
    by (rewrite Rmin_right; lra).
  rewrite bool_decide_eq_true_2 by lra. simpl.
  rewrite lookup_insert_eq. done.
Qed.

(** Third batch of the scenario: the link lies in the main content, it
    was recorded with score 89 by the first batch, and the cursor now
    rests 30 pixels to the left of its centre. *)
Lemma near_candidate_total (sc : R) s :
  historyCache s !! linkUrl = None →
  totalScoreOf (envAt 2000 (restingAt 170))
    (Tracker.getData (restingAt 170)) s (linkIn inMain sc)
  = Some (54.05, mkBreakdown 85 0 97 80 40).
Proof.
  intros Hh.
  rewrite (totalScoreOf_resting inMain sc 2000 170 30 1 s);
    [|lra|lra|lra|simpl; lra|lia|done].
  rewrite (bool_decide_eq_false_2 (170 = 200)) by lra.
  rewrite inMain_context. simpl INR.
  f_equal. f_equal; [lra|]. f_equal; lra.
Qed.

Lemma resting_speed x : Tracker.cd_speed (Tracker.getData (restingAt x)) = 0.
Proof. simpl. apply sqrt_of_square; lra. Qed.

Lemma near_candidate_boost :
  _getGraceBoost (envAt 2000 (restingAt 170)) linkUrl 54.05
    (Tracker.getData (restingAt 170)) (batchAt 1000 200 (pageWith inMain)).1
  = (89 - 54.05,
     withTimer (batchAt 1000 200 (pageWith inMain)).1 linkUrl
       (mkTimeout linkUrl (2000 + 200))).
Proof.
  rewrite (first_batch inMain 80) by (done || lra).
  erewrite getGraceBoost_start;
    [|rewrite resting_speed; lra|lra|done|apply lookup_insert_eq|simpl; lra].
  simpl. f_equal. lra.
Qed.

Lemma grace_boost_restores_previous_score_witness :
  ∃ prev,
    scores (batchAt 1000 200 (pageWith inMain)).1 !! linkUrl = Some prev
    ∧ sr_score prev = 89
    ∧ score (scoreLink (envAt 2000 (restingAt 170))
               (Tracker.getData (restingAt 170)) (linkIn inMain 89)
               (batchAt 1000 200 (pageWith inMain)).1).1.1
      = sr_score prev.
Proof.
  assert (historyCache (batchAt 1000 200 (pageWith inMain)).1 !! linkUrl = None)
    as Hh by (rewrite (first_batch inMain 80) by (done || lra); done).
  destruct (grace_boost_restores_previous_score
              (envAt 2000 (restingAt 170)) (Tracker.getData (restingAt 170))
              (linkIn inMain 89) (batchAt 1000 200 (pageWith inMain)).1
              54.05 (mkBreakdown 85 0 97 80 40)
              (first_batch_reachable inMain) eq_refl
              (near_candidate_total 89 _ Hh))
    as (prev & Hprev & Hb & Hscore & _).
  - simpl url. rewrite near_candidate_boost. simpl. lra.
  - exists prev. split; [exact Hprev|]. split; [|exact Hscore].
    simpl url in Hb. rewrite near_candidate_boost in Hb. simpl in Hb. lra.
Defined.

Lemma NoDup_urls_filter (l : list Timeout) u :
  NoDup (map t_url l) →
  (length (filter (λ t, t_url t = u) l) ≤ 1)%nat.
Proof.
  induction l as [|t l IH]; simpl; [lia|].
  intros [Hnot Hnd]%NoDup_cons. rewrite filter_cons.
  destruct (decide (t_url t = u)) as [Hu|Hu]; [|by apply IH].
  assert (filter (λ t0, t_url t0 = u) l = []) as ->; [|simpl; lia].
  destruct (filter (λ t0, t_url t0 = u) l) as [|t' l'] eqn:E; [done|].
  exfalso. apply Hnot.
  assert (t' ∈ filter (λ t0, t_url t0 = u) l) as Hin by (rewrite E; by left).
  apply list_elem_of_filter in Hin as [Ht' Hin].
  rewrite Hu, <- Ht'. apply list_elem_of_fmap. eauto.
Qed.

(** C6. In every state the predictor reaches, also in the middle of a
    batch, at most one grace timeout is waiting for any URL; and while
    one is waiting for a URL, a further trigger for that URL returns no
    boost and leaves the state as it is: no second timeout is queued
    and the deadline of the first does not move. *)
Theorem at_most_one_grace_timer_per_url s :
  reachable s →
  (∀ u, (timersFor u s ≤ 1)%nat)
  ∧ (∀ env u cur cd,
       (0 < timersFor u s)%nat →
       _getGraceBoost env u cur cd s = (0, s)).
Proof.
  intros [_ [Hnd Hreg]]%reachable_invariants. split.
  - intros u. by apply NoDup_urls_filter.
  - intros env u cur cd Hpos. unfold timersFor in Hpos.
    destruct (filter (λ t, t_url t = u) (pendingTimeouts s)) as [|t l] eqn:E;
      [simpl in Hpos; lia|].
    assert (t ∈ filter (λ t, t_url t = u) (pendingTimeouts s)) as Hin
      by (rewrite E; by left).
    apply list_elem_of_filter in Hin as [Hu Hin]. apply Hreg in Hin.
    rewrite Hu in Hin. unfold _getGraceBoost. rewrite Hin.
    by destruct (_ && _).
Qed.

Lemma at_most_one_grace_timer_per_url_witness :
  timersFor linkUrl
    (scoreLink (envAt 2000 (restingAt 170))
       (Tracker.getData (restingAt 170)) (linkIn inMain 89)
       (batchAt 1000 200 (pageWith inMain)).1).1.2 = 1%nat
  ∧ _getGraceBoost (envAt 2100 (restingAt 170)) linkUrl 54.05
      (Tracker.getData (restingAt 170))
      (scoreLink (envAt 2000 (restingAt 170))
         (Tracker.getData (restingAt 170)) (linkIn inMain 89)
         (batchAt 1000 200 (pageWith inMain)).1).1.2
    = (0, (scoreLink (envAt 2000 (restingAt 170))
             (Tracker.getData (restingAt 170)) (linkIn inMain 89)
             (batchAt 1000 200 (pageWith inMain)).1).1.2).
Proof.
  set (s2 := (scoreLink (envAt 2000 (restingAt 170))
                (Tracker.getData (restingAt 170)) (linkIn inMain 89)
                (batchAt 1000 200 (pageWith inMain)).1).1.2).
  assert (timersFor linkUrl s2 = 1%nat) as Hone.
  { subst s2.
    assert (historyCache (batchAt 1000 200 (pageWith inMain)).1 !! linkUrl
            = None) as Hh
      by (rewrite (first_batch inMain 80) by (done || lra); done).
    erewrite scoreLink_scored;
      [|reflexivity|by apply near_candidate_total
       |apply near_candidate_boost].
    rewrite (first_batch inMain 80) by (done || lra).
    case_bool_decide; reflexivity. }
  split; [exact Hone|].
  apply (proj2 (at_most_one_grace_timer_per_url s2
                  (reachable_step _ _ (first_batch_reachable inMain)
                     (step_candidate _ _ _ _)))).
  rewrite Hone. lia.
Defined.

End PredictorTable.


(* ===================================================================== *)
(** * Further properties of the prefetcher                                *)
(* ===================================================================== *)

Section Strings.

Lemma string_length_app (a b : string) :
  String.length (a +:+ b) = (String.length a + String.length b)%nat.
Proof. induction a as [|c a IH]; simpl; [done|]. by rewrite IH. Qed.

Lemma substring_all (b : string) : String.substring 0 (String.length b) b = b.
Proof. induction b as [|c b IH]; simpl; [done|]. by rewrite IH. Qed.

Lemma substring_skip (a b : string) :
  String.substring (String.length a) (String.length b) (a +:+ b) = b.
Proof. induction a as [|c a IH]; simpl; [apply substring_all|done]. Qed.

Lemma substring_take (a b : string) :
  String.substring 0 (String.length a) (a +:+ b) = a.
Proof.
  induction a as [|c a IH]; simpl; [by destruct b|]. by rewrite IH.
Qed.

Lemma string_length_substring (n m : nat) (s : string) :
  (n + m ≤ String.length s)%nat → String.length (String.substring n m s) = m.
Proof.
  revert n m. induction s as [|c s IH]; intros n m Hle; simpl in *.
  - assert (n = 0 ∧ m = 0)%nat as [-> ->] by lia. done.
  - destruct n as [|n].
    + destruct m as [|m]; simpl; [done|]. rewrite IH; [done|lia].
    + apply IH. lia.
Qed.

Lemma endsWith_app (a b : string) : Url.endsWith (a +:+ b) b = true.
Proof.
  unfold Url.endsWith. rewrite string_length_app.
  replace (String.length a + String.length b - String.length b)%nat
    with (String.length a) by lia.
  rewrite substring_skip, String.eqb_refl, andb_true_r.
  apply Nat.leb_le. lia.
Qed.

Lemma startsWith_app (a b : string) : Url.startsWith (a +:+ b) a = true.
Proof.
  unfold Url.startsWith. rewrite string_length_app.
  rewrite substring_take, String.eqb_refl, andb_true_r.
  apply Nat.leb_le. lia.
Qed.

Lemma dropLast_slash (p : string) : Url.dropLast (p +:+ "/") = p.
Proof.
  unfold Url.dropLast. rewrite string_length_app. simpl.
  replace (String.length p + 1 - 1)%nat with (String.length p) by lia.
  apply substring_take.
Qed.

End Strings.

Section PrefetcherMore.

Import Prefetcher.

Implicit Types (s : State) (h : Host) (ty : HintType) (url : Url.t).

Lemma normalize_strips_slash (u : Url.parts) (p : string) :
  p ≠ "" → Url.pathname u = (p +:+ "/")%string →
  _normalize (Url.Parsed u) = (Url.origin u +:+ p +:+ Url.search u)%string.
Proof.
  intros Hp Hpath. unfold _normalize. rewrite Hpath, endsWith_app.
  rewrite string_length_app. simpl.
  assert ((1 <? String.length p + 1)%nat = true) as ->.
  { apply Nat.ltb_lt. destruct p; [done|simpl; lia]. }
  simpl. by rewrite dropLast_slash.
Qed.

Lemma normalize_keeps_path (u : Url.parts) :
  Url.endsWith (Url.pathname u) "/" = false →
  _normalize (Url.Parsed u)
  = (Url.origin u +:+ Url.pathname u +:+ Url.search u)%string.
Proof. intros H. unfold _normalize. by rewrite H. Qed.

(** X1. Two URLs of the same origin and query whose paths are [p] and
    [p/] (with [p] not empty and not itself ending in a slash), whatever
    their fragments, have the same normal form, origin, [p] and query;
    the root path [/] keeps its slash. *)
Theorem normalize_identifies_slash_and_fragment
    (pr ho po p se h1 h2 : string) :
  p ≠ "" → Url.endsWith p "/" = false →
  _normalize (Url.Parsed (Url.mkParts pr ho po (p +:+ "/") se h1))
  = _normalize (Url.Parsed (Url.mkParts pr ho po p se h2))
  ∧ _normalize (Url.Parsed (Url.mkParts pr ho po p se h2))
    = (Url.origin (Url.mkParts pr ho po p se h2) +:+ p +:+ se)%string
  ∧ _normalize (Url.Parsed (Url.mkParts pr ho po "/" se h1))
    = (Url.origin (Url.mkParts pr ho po "/" se h1) +:+ "/" +:+ se)%string.
Proof.
  intros Hp Hend. split; [|split].
  - rewrite (normalize_strips_slash _ p) by done.
    by rewrite normalize_keeps_path.
  - by rewrite normalize_keeps_path.
  - reflexivity.
Qed.

Lemma normalize_identifies_slash_and_fragment_witness :
  _normalize (Url.Parsed (Url.mkParts "https:" "a.com" "" "/x/" "?q=1" "#top"))
  = _normalize (Url.Parsed (Url.mkParts "https:" "a.com" "" "/x" "?q=1" "")).
Proof.
  apply (proj1 (normalize_identifies_slash_and_fragment
                  "https:" "a.com" "" "/x" "?q=1" "#top" "" ltac:(done) eq_refl)).
Defined.

Lemma addSpeculationRule_accepted h ty (u : string) s :
  scriptOk h = true →
  ∃ s', _addSpeculationRule h ty u s = Completed s'
        ∧ last (activeSpeculationRules s') = Some (mkRule ty u (now h))
        ∧ requests s' = requests
                          (if (maxRules <=? length (activeSpeculationRules s))%nat
                           then _removeOldestRule s else s)
                        ++ [InjectSpeculationRule ty u (eagerness ty)].
Proof.
  intros Hok. unfold _addSpeculationRule. rewrite Hok. eexists.
  split; [done|]. simpl. split; [apply last_snoc|done].
Qed.

Lemma prefetch_accepted h url url' s :
  has (Url.raw url) s = false → saveData h = false → scriptOk h = true →
  _normalize url' = _normalize url →
  wasPrefetched url' (prefetch h url s) = true
  ∧ getPrefetchType url' (prefetch h url s) = Some Prefetch
  ∧ last (activeSpeculationRules (prefetch h url s))
    = Some (mkRule Prefetch (Url.raw url) (now h)).
Proof.
  intros Hhas Hsd Hok Hn. unfold prefetch. rewrite Hhas, Hsd.
  destruct (addSpeculationRule_accepted h Prefetch (Url.raw url) s Hok)
    as (s1 & -> & Hl1 & _).
  unfold wasPrefetched, getPrefetchType, has. rewrite Hn. simpl.
  rewrite !lookup_insert_eq. simpl.
  repeat split; try done; apply bool_decide_eq_true; eauto.
Qed.

Lemma prerender_accepted h url url' s :
  has (Url.raw url) s = false → saveData h = false → scriptOk h = true →
  _normalize url' = _normalize url →
  wasPrefetched url' (prerender h url s) = true
  ∧ getPrefetchType url' (prerender h url s) = Some Prerender
  ∧ last (activeSpeculationRules (prerender h url s))
    = Some (mkRule Prerender (Url.raw url) (now h)).
Proof.
  intros Hhas Hsd Hok Hn. unfold prerender. rewrite Hhas, Hsd.
  destruct (addSpeculationRule_accepted h Prerender (Url.raw url) s Hok)
    as (s1 & -> & Hl1 & _).
  unfold wasPrefetched, getPrefetchType, has. rewrite Hn. simpl.
  rewrite !lookup_insert_eq. simpl.
  repeat split; try done; apply bool_decide_eq_true; eauto.
Qed.

(** X2. When the guard lets a [prefetch] or [prerender] through (the
    string is not a key of the index, no data saver) and the host accepts
    the script, the directive is the last active rule and is found by
    [wasPrefetched] and [getPrefetchType] under every URL that has the
    same normal form. *)
Theorem accepted_issuance_is_recorded h url url' s :
  has (Url.raw url) s = false → saveData h = false → scriptOk h = true →
  _normalize url' = _normalize url →
  (wasPrefetched url' (prefetch h url s) = true
   ∧ getPrefetchType url' (prefetch h url s) = Some Prefetch
   ∧ last (activeSpeculationRules (prefetch h url s))
     = Some (mkRule Prefetch (Url.raw url) (now h)))
  ∧ (wasPrefetched url' (prerender h url s) = true
     ∧ getPrefetchType url' (prerender h url s) = Some Prerender
     ∧ last (activeSpeculationRules (prerender h url s))
       = Some (mkRule Prerender (Url.raw url) (now h))).
Proof.
  intros Hhas Hsd Hok Hn. split.
  - by apply prefetch_accepted.
  - by apply prerender_accepted.
Qed.

Lemma accepted_issuance_is_recorded_witness :
  wasPrefetched (Scenario.page "a.com" "/x")
    (prefetch (Scenario.hostAt 0) Scenario.slashUrl init) = true.
Proof.
  apply (proj1 (accepted_issuance_is_recorded (Scenario.hostAt 0)
                  Scenario.slashUrl (Scenario.page "a.com" "/x") init
                  eq_refl eq_refl eq_refl eq_refl)).
Defined.

(** With the data saver on, [prefetch] and [prerender] change
    nothing; [dnsPrefetch] and [preconnect] do not read the flag. *)
Theorem data_saver_vetoes_heavy_tiers_only h url s :
  saveData h = true →
  prefetch h url s = s
  ∧ prerender h url s = s
  ∧ dnsPrefetch h url s = dnsPrefetch (mkHost (now h) false (scriptOk h)) url s
  ∧ preconnect h url s = preconnect (mkHost (now h) false (scriptOk h)) url s.
Proof.
  intros Hsd. unfold prefetch, prerender. rewrite Hsd.
  split; [by destruct (has _ s)|]. split; [by destruct (has _ s)|].
  by destruct url.
Qed.

Lemma data_saver_vetoes_heavy_tiers_only_witness :
  prefetch (mkHost 0 true true) Scenario.slashUrl init = init.
Proof.
  apply (proj1 (data_saver_vetoes_heavy_tiers_only (mkHost 0 true true)
                  Scenario.slashUrl init eq_refl)).
Defined.

(** X3. When the host rejects the script, a [prefetch] or [prerender]
    that passed its guard records nothing. Below capacity the state is
    left as it was; at capacity the oldest rule has already been evicted
    and its index entry deleted, so one rule is lost. *)
Theorem rejected_script_records_nothing h url s :
  has (Url.raw url) s = false → saveData h = false → scriptOk h = false →
  prerender h url s = prefetch h url s
  ∧ ((length (activeSpeculationRules s) < maxRules)%nat →
     prefetch h url s = s)
  ∧ ((maxRules ≤ length (activeSpeculationRules s))%nat →
     ∃ oldest rest,
       activeSpeculationRules s = oldest :: rest
       ∧ activeSpeculationRules (prefetch h url s) = rest
       ∧ prefetchedUrls (prefetch h url s)
         = delete (r_url oldest) (prefetchedUrls s)).
Proof.
  intros Hhas Hsd Hok. unfold prefetch, prerender, _addSpeculationRule.
  rewrite Hhas, Hsd, Hok. split; [done|]. split.
  - intros Hlt. apply Nat.leb_gt in Hlt. by rewrite Hlt.
  - intros Hge. pose proof Hge as Hb. apply Nat.leb_le in Hb. rewrite Hb.
    unfold _removeOldestRule.
    destruct (activeSpeculationRules s) as [|oldest rest] eqn:E;
      [simpl in Hge; unfold maxRules in Hge; lia|].
    by exists oldest, rest.
Qed.

Lemma rejected_script_records_nothing_witness :
  prefetch (mkHost 0 false false) Scenario.slashUrl init = init.
Proof.
  apply (proj1 (proj2 (rejected_script_records_nothing (mkHost 0 false false)
                         Scenario.slashUrl init eq_refl eq_refl eq_refl))).
  vm_compute. lia.
Defined.

Lemma run_rule_types (c : Call) s :
  Forall (λ r, r_type r = Prefetch ∨ r_type r = Prerender)
         (activeSpeculationRules s) →
  Forall (λ r, r_type r = Prefetch ∨ r_type r = Prerender)
         (activeSpeculationRules (run c s)).
Proof.
  intros Hs.
  assert (∀ h ty (u : string), ty = Prefetch ∨ ty = Prerender →
            match _addSpeculationRule h ty u s with
            | Completed s' | Thrown s' =>
                Forall (λ r, r_type r = Prefetch ∨ r_type r = Prerender)
                       (activeSpeculationRules s')
            end) as Hadd.
  { intros h ty u Hty. unfold _addSpeculationRule.
    assert (Forall (λ r, r_type r = Prefetch ∨ r_type r = Prerender)
              (activeSpeculationRules
                 (if (maxRules <=? length (activeSpeculationRules s))%nat
                  then _removeOldestRule s else s))) as H1.
    { destruct (_ <=? _)%nat; [|done]. unfold _removeOldestRule.
      destruct (activeSpeculationRules s) as [|o rest] eqn:E; simpl.
      - by rewrite E.
      - by apply Forall_cons in Hs as [_ ?]. }
    destruct (scriptOk h); simpl; [|done].
    apply Forall_app. split; [done|]. by apply Forall_singleton. }
  destruct c as [h url|h url|h url|h url|n m]; simpl.
  - unfold dnsPrefetch. by destruct url.
  - unfold preconnect. by destruct url.
  - unfold prefetch. destruct (has _ s); [done|]. destruct (saveData h); [done|].
    specialize (Hadd h Prefetch (Url.raw url) (or_introl eq_refl)).
    by destruct (_addSpeculationRule h Prefetch (Url.raw url) s).
  - unfold prerender. destruct (has _ s); [done|]. destruct (saveData h); [done|].
    specialize (Hadd h Prerender (Url.raw url) (or_intror eq_refl)).
    by destruct (_addSpeculationRule h Prerender (Url.raw url) s).
  - done.
Qed.

Lemma runAll_rule_types (cs : list Call) s :
  Forall (λ r, r_type r = Prefetch ∨ r_type r = Prerender)
         (activeSpeculationRules s) →
  Forall (λ r, r_type r = Prefetch ∨ r_type r = Prerender)
         (activeSpeculationRules (runAll cs s)).
Proof.
  revert s. induction cs as [|c cs IH]; intros s Hs; simpl; [done|].
  apply IH. by apply run_rule_types.
Qed.

(** X4. Along every sequence of calls on a fresh prefetcher the active
    rules are [prefetch] or [prerender] rules only: DNS and preconnect
    hints never take a slot of the bounded list. *)
Theorem active_rules_are_heavy_tiers (calls : list Call) :
  Forall (λ r, r_type r = Prefetch ∨ r_type r = Prerender)
         (activeSpeculationRules (runAll calls init)).
Proof. apply runAll_rule_types. simpl. constructor. Qed.

Lemma clearOldPrefetches_lookup (nowMs maxAgeMs : Z) (key : string) d s :
  prefetchedUrls (clearOldPrefetches nowMs maxAgeMs s) !! key = Some d
  ↔ prefetchedUrls s !! key = Some d ∧ (nowMs - tr_timestamp d ≤ maxAgeMs)%Z.
Proof.
  simpl. rewrite map_lookup_filter_Some. simpl. unfold expired.
  rewrite bool_decide_eq_false. split; intros [? ?]; split; (done || lia).
Qed.

(** X5. [clearOldPrefetches] keeps exactly the index entries whose age is
    at most the limit and leaves the active rules and the page alone, so
    a swept URL can still have its rule in the list; sweeping twice with
    the same clock is the same as sweeping once. *)
Theorem clearOldPrefetches_keeps_young_entries (nowMs maxAgeMs : Z) s :
  (∀ key d,
     prefetchedUrls (clearOldPrefetches nowMs maxAgeMs s) !! key = Some d
     ↔ prefetchedUrls s !! key = Some d
       ∧ (nowMs - tr_timestamp d ≤ maxAgeMs)%Z)
  ∧ activeSpeculationRules (clearOldPrefetches nowMs maxAgeMs s)
    = activeSpeculationRules s
  ∧ requests (clearOldPrefetches nowMs maxAgeMs s) = requests s
  ∧ clearOldPrefetches nowMs maxAgeMs (clearOldPrefetches nowMs maxAgeMs s)
    = clearOldPrefetches nowMs maxAgeMs s.
Proof.
  split; [intros key d; apply clearOldPrefetches_lookup|].
  split; [done|]. split; [done|].
  unfold clearOldPrefetches at 1 3. simpl. f_equal.
  apply map_eq. intros key. apply option_eq. intros d.
  rewrite map_lookup_filter_Some. simpl.
  pose proof (clearOldPrefetches_lookup nowMs maxAgeMs key d s) as H.
  simpl in H. rewrite H. unfold expired. rewrite bool_decide_eq_false.
  split; [tauto|]. intros [? ?]. split; [done|lia].
Qed.

(** X6. Evicting the oldest rule deletes the index entry under the string
    stored in the rule. When that string is the normal form of the URL
    the URL is forgotten; when it is not (trailing slash, fragment) the
    entry recorded under the normal form stays and [wasPrefetched] keeps
    answering as before. *)
Theorem eviction_deletes_by_rule_string url ty (ts : Z) rest s :
  activeSpeculationRules s = mkRule ty (Url.raw url) ts :: rest →
  activeSpeculationRules (_removeOldestRule s) = rest
  ∧ (Url.raw url = _normalize url →
     wasPrefetched url (_removeOldestRule s) = false)
  ∧ (Url.raw url ≠ _normalize url →
     wasPrefetched url (_removeOldestRule s) = wasPrefetched url s).
Proof.
  intros Hr. unfold _removeOldestRule, wasPrefetched, has. rewrite Hr. simpl.
  split; [done|]. split.
  - intros <-. rewrite lookup_delete_eq. apply bool_decide_eq_false.
    by intros [? ?].
  - intros Hne. by rewrite lookup_delete_ne.
Qed.

Lemma eviction_deletes_by_rule_string_witness :
  wasPrefetched Scenario.slashUrl
    (_removeOldestRule (prefetch (Scenario.hostAt 0) Scenario.slashUrl init))
  = wasPrefetched Scenario.slashUrl
      (prefetch (Scenario.hostAt 0) Scenario.slashUrl init).
Proof.
  apply (proj2 (proj2 (eviction_deletes_by_rule_string Scenario.slashUrl
                         Prefetch 0 []
                         (prefetch (Scenario.hostAt 0) Scenario.slashUrl init)
                         eq_refl))).
  by vm_compute.
Defined.

End PrefetcherMore.


(* ===================================================================== *)
(** * Further properties of the service worker                            *)
(* ===================================================================== *)

Section ServiceWorkerMore.

Import ServiceWorker.
Local Open Scope R_scope.

Lemma profile_thresholds (cm : ContextManager.State) :
  let p := ContextManager.getProfile cm in
  30 <= ContextManager.preconnectThreshold p
  ∧ ContextManager.preconnectThreshold p <= ContextManager.prefetchThreshold p
  ∧ ContextManager.prefetchThreshold p <= ContextManager.prerenderThreshold p
  ∧ (0 < ContextManager.maxPrefetch p)%nat.
Proof.
  unfold ContextManager.getProfile.
  destruct (ContextManager.currentProfileName cm); simpl;
    repeat split; (lra || lia).
Qed.

(** X8. Whatever the mode and the telemetry, a link whose score is below
    30 causes no call to the prefetcher and no change of the counters. *)
Theorem low_score_link_is_ignored (cm : ContextManager.State) h link s :
  score link < 30 →
  handleLink (ContextManager.getProfile cm) h link s = s.
Proof.
  intros Hlow. destruct (profile_thresholds cm) as (H1 & H2 & H3 & _).
  unfold handleLink.
  rewrite !bool_decide_eq_false_2 by lra. done.
Qed.

Lemma low_score_link_is_ignored_witness :
  handleLink (ContextManager.getProfile ContextManager.init)
    (Scenario.hostAt 0) (mkLink Scenario.slashUrl 29.5) init = init.
Proof.
  apply (low_score_link_is_ignored ContextManager.init). simpl. lra.
Defined.

Lemma handleFrom_counts profile host (links : list Link) i s :
  (0 < ContextManager.maxPrefetch profile)%nat →
  ContextManager.prefetchThreshold profile
  <= ContextManager.prerenderThreshold profile →
  totalPrefetches (handleFrom profile host i links s)
  = (totalPrefetches s
     + length (filter (λ l, (ContextManager.prefetchThreshold profile
                             <= score l)%R) links))%nat.
Proof.
  intros Hq Hth. revert i s.
  induction links as [|link rest IH]; intros i s; simpl; [lia|].
  rewrite IH, filter_cons. unfold handleLink.
  apply Nat.ltb_lt in Hq. rewrite Hq, andb_true_r.
  destruct (decide (ContextManager.prefetchThreshold profile <= score link))
    as [Hin|Hout].
  - rewrite (bool_decide_eq_true_2 _ Hin).
    destruct (_ && _); simpl; lia.
  - rewrite (bool_decide_eq_false_2 (_ <= score link)) by lra.
    rewrite (bool_decide_eq_false_2 _ Hout). simpl.
    repeat case_bool_decide; simpl; lia.
Qed.

(** X9. [totalPrefetches] counts attempts: a batch raises it by the
    number of links whose score reaches the prefetch threshold of the
    profile in force, whether or not the prefetcher then does anything
    (duplicate, data saver, rejected script). *)
Theorem totalPrefetches_counts_attempts (cm : ContextManager.State) host
    (links : list Link) s :
  totalPrefetches (_handlePredictions cm host links s)
  = (totalPrefetches s
     + length (filter (λ l, (ContextManager.prefetchThreshold
                               (ContextManager.getProfile cm) <= score l)%R)
                 links))%nat.
Proof.
  destruct (profile_thresholds cm) as (_ & _ & H3 & H4).
  by apply handleFrom_counts.
Qed.







End ServiceWorkerMore.

(* ===================================================================== *)
(** * Properties of the service as a whole                                *)
(* ===================================================================== *)

Section ServiceMore.

Import Service.
Local Open Scope R_scope.

(** X13. After an accepted [prefetch] of a URL, a navigation of the main
    frame to any URL with the same normal form is counted as a
    successful prediction; a navigation of a sub-frame never is. *)
Theorem navigation_to_prefetched_url_counts h url url' frameId (s : State) :
  Prefetcher.has (Url.raw url) (ServiceWorker.prefetcher (worker s)) = false →
  Prefetcher.saveData h = false → Prefetcher.scriptOk h = true →
  Prefetcher._normalize url' = Prefetcher._normalize url →
  let s' := mkState
              (ServiceWorker.mkState
                 (Prefetcher.prefetch h url (ServiceWorker.prefetcher (worker s)))
                 (ServiceWorker.totalPrefetches (worker s)))
              (contextManager s) (successfulPredictions s) (timeSaved s) in
  successfulPredictions (onCompleted 0 url' s') = S (successfulPredictions s)
  ∧ (frameId ≠ 0%Z → onCompleted frameId url' s' = s').
Proof.
  intros Hhas Hsd Hok Hn s'.
  destruct (prefetch_accepted h url url' _ Hhas Hsd Hok Hn) as [Hw _].
  split.
  - unfold onCompleted. rewrite bool_decide_eq_false_2 by (intros H; by apply H).
    simpl. by rewrite Hw.
  - intros Hf. unfold onCompleted. by rewrite bool_decide_eq_true_2.
Qed.

Lemma navigation_to_prefetched_url_counts_witness :
  successfulPredictions
    (onCompleted 0 (Scenario.page "a.com" "/x")
       (mkState
          (ServiceWorker.mkState
             (Prefetcher.prefetch (Scenario.hostAt 0) Scenario.slashUrl
                (ServiceWorker.prefetcher (worker init)))
             (ServiceWorker.totalPrefetches (worker init)))
          (contextManager init) (successfulPredictions init) (timeSaved init)))
  = S (successfulPredictions init).
Proof.
  apply (proj1 (navigation_to_prefetched_url_counts (Scenario.hostAt 0)
                  Scenario.slashUrl (Scenario.page "a.com" "/x") 1 init
                  eq_refl eq_refl eq_refl eq_refl)).
Defined.

(** X12. [NAVIGATION_COMPLETE] adds [max(0, 2000 - loadTime)] to the
    estimated time saved and changes nothing else: [2000 - loadTime] for
    a load faster than 2 seconds, nothing otherwise, whatever the URL and
    whether or not it had been prefetched; the counter of successful
    predictions stays as it was. Over a series of such messages, with no
    reload of the stored statistics in between, the estimate grows by
    the sum of the amounts, so it never decreases. *)
Theorem navigation_complete_adds_clamped_savings
    (navs : list (Url.t * R)) (s : State) :
  let after := foldl (λ acc n, _trackSuccessfulPrediction n.1 n.2 acc) s navs in
  (∀ url loadTime,
     timeSaved (_trackSuccessfulPrediction url loadTime s)
     = timeSaved s + (if bool_decide (loadTime < 2000) then 2000 - loadTime else 0)
     ∧ successfulPredictions (_trackSuccessfulPrediction url loadTime s)
       = successfulPredictions s
     ∧ worker (_trackSuccessfulPrediction url loadTime s) = worker s
     ∧ contextManager (_trackSuccessfulPrediction url loadTime s)
       = contextManager s)
  ∧ timeSaved after
    = timeSaved s
      + foldr (λ n acc, (if bool_decide (n.2 < 2000) then 2000 - n.2 else 0) + acc)
          0 navs
  ∧ timeSaved s <= timeSaved after
  ∧ successfulPredictions after = successfulPredictions s
  ∧ (Forall (λ n, 0 <= n.2) navs →
     timeSaved after <= timeSaved s + 2000 * INR (length navs)).
Proof.
  assert (∀ lt, Rmax 0 (2000 - lt)
                = if bool_decide (lt < 2000) then 2000 - lt else 0) as Hmax.
  { intros lt. case_bool_decide; [apply Rmax_right|apply Rmax_left]; lra. }
  intros after. split.
  { intros url lt. simpl. by rewrite Hmax. }
  subst after. revert s. induction navs as [|[u lt] navs IH]; intros s.
  - simpl. repeat split; try lra.
  - destruct (IH (_trackSuccessfulPrediction u lt s)) as (H1 & H2 & H3 & H4).
    cbn [foldl foldr fst snd] in *.
    assert (timeSaved (_trackSuccessfulPrediction u lt s)
            = timeSaved s + (if bool_decide (lt < 2000) then 2000 - lt else 0))
      as E by (simpl; by rewrite Hmax).
    rewrite E in *.
    assert (0 <= (if bool_decide (lt < 2000) then 2000 - lt else 0)) as Hpos
      by (case_bool_decide; lra).
    split; [rewrite H1; lra|]. split; [lra|]. split; [by rewrite H3|].
    intros Hall. inversion Hall as [|? ? Hlt Hrest]; subst. simpl in Hlt.
    specialize (H4 Hrest).
    assert ((if bool_decide (lt < 2000) then 2000 - lt else 0) <= 2000)
      by (case_bool_decide; lra).
    change (length ((u, lt) :: navs)) with (S (length navs)).
    rewrite S_INR. lra.
Qed.

Lemma navigation_complete_adds_clamped_savings_witness :
  timeSaved (foldl (λ acc n, _trackSuccessfulPrediction n.1 n.2 acc) init
               [(Scenario.slashUrl, 500); (Scenario.otherUrl, 2500)])
  = 1500
  ∧ timeSaved (foldl (λ acc n, _trackSuccessfulPrediction n.1 n.2 acc) init
                 [(Scenario.slashUrl, 500); (Scenario.otherUrl, 2500)])
    <= timeSaved init + 2000 * INR 2.
Proof.
  split.
  - rewrite (proj1 (proj2 (navigation_complete_adds_clamped_savings
                             [(Scenario.slashUrl, 500); (Scenario.otherUrl, 2500)]
                             init))).
    cbn [foldr fst snd]. rewrite bool_decide_eq_true_2 by lra.
    rewrite bool_decide_eq_false_2 by lra. simpl. lra.
  - apply (proj2 (proj2 (proj2 (proj2
             (navigation_complete_adds_clamped_savings
                [(Scenario.slashUrl, 500); (Scenario.otherUrl, 2500)] init))))).
    repeat constructor; simpl; lra.
Defined.

End ServiceMore.


(* ===================================================================== *)
(** * Further properties of the context manager                           *)
(* ===================================================================== *)

Section ContextManagerMore.

Import ContextManager ContextEvents.
Local Open Scope R_scope.

Implicit Types (s : State) (c : ContextData).

Lemma setMode_known (m : Mode) s :
  setMode (modeName m) s
  = _recalculateMode (mkState m (contextData s) (_effectiveMode s)).
Proof. by destruct m as [[]|]. Qed.

Lemma profile_in_step s :
  (currentMode s = Auto →
   currentProfileName s = effectiveModeOf (contextData s)) →
  getProfile s
  = match currentMode s with
    | Auto => profiles (effectiveModeOf (contextData s))
    | Fixed p => profiles p
    end.
Proof.
  intros H. unfold getProfile. destruct (currentMode s) eqn:E.
  - unfold currentProfileName. by rewrite E.
  - by rewrite H.
Qed.

Lemma handle_in_step (ev : Event) s :
  (currentMode s = Auto →
   currentProfileName s = effectiveModeOf (contextData s)) →
  currentMode (handle ev s) = Auto →
  currentProfileName (handle ev s)
  = effectiveModeOf (contextData (handle ev s)).
Proof.
  intros Hs. destruct ev as [e|mode]; simpl.
  - destruct (currentMode s) as [p|] eqn:Hm.
    + destruct s as [m c eff]. simpl in Hm. subst m.
      destruct e as [b|conn|used limit]; simpl; discriminate.
    + intros _. destruct (onTelemetry_auto e s Hm) as [Ha Hp].
      unfold getProfile in Hp.
      destruct (currentProfileName (onTelemetry e s)),
        (effectiveModeOf (contextData (onTelemetry e s)));
        simpl in Hp; (done || (exfalso; injection Hp; intros; lra)).
  - unfold setMode. by destruct (parseMode mode) as [[p|]|].
Qed.

(** X14. After any sequence of telemetry changes and [setMode] calls on a
    fresh manager, the profile in force is the pinned one when the mode
    is fixed, and the one the rule gives on the telemetry held at that
    moment when the mode is automatic. *)
Theorem profile_follows_mode_and_telemetry (evs : list Event) :
  let s := runEvents evs init in
  getProfile s
  = match currentMode s with
    | Auto => profiles (effectiveModeOf (contextData s))
    | Fixed p => profiles p
    end.
Proof.
  intros s. apply profile_in_step. subst s.
  assert (∀ s0,
    (currentMode s0 = Auto →
     currentProfileName s0 = effectiveModeOf (contextData s0)) →
    currentMode (runEvents evs s0) = Auto →
    currentProfileName (runEvents evs s0)
    = effectiveModeOf (contextData (runEvents evs s0))) as H.
  { induction evs as [|ev evs IH]; intros s0 H0; simpl; [done|].
    apply IH. by apply handle_in_step. }
  apply H. intros _. unfold effectiveModeOf, init. simpl.
  repeat case_bool_decide; simpl; (done || lra).
Qed.

Lemma telemetry_in_fixed_mode (e : ContextManager.Telemetry) s p :
  currentMode s = Fixed p →
  currentMode (onTelemetry e s) = Fixed p
  ∧ _effectiveMode (onTelemetry e s) = _effectiveMode s.
Proof.
  destruct s as [m c eff]. simpl. intros ->.
  by destruct e as [b|conn|used limit].
Qed.

(** X15. [setMode] ignores a string that is none of the four mode names,
    and otherwise makes that mode current. While a fixed mode is current,
    telemetry changes neither the mode nor the profile in force. *)
Theorem setMode_pins_the_profile (name : string) s :
  (name ≠ "turbo"%string → name ≠ "balanced"%string → name ≠ "eco"%string →
   name ≠ "auto"%string → setMode name s = s)
  ∧ (∀ m, currentMode (setMode (modeName m) s) = m)
  ∧ (∀ p (es : list ContextManager.Telemetry),
       getProfile (runEvents (Telemetry <$> es) (setMode (modeName (Fixed p)) s))
       = profiles p).
Proof.
  split; [|split].
  - intros H1 H2 H3 H4. unfold setMode, parseMode.
    apply String.eqb_neq in H1, H2, H3, H4. by rewrite H1, H2, H3, H4.
  - intros m. rewrite setMode_known. by destruct m.
  - intros p es.
    assert (∀ s0, currentMode s0 = Fixed p →
              currentMode (runEvents (Telemetry <$> es) s0) = Fixed p) as H.
    { induction es as [|e es IH]; intros s0 H0; simpl; [done|].
      apply IH. by apply telemetry_in_fixed_mode. }
    unfold getProfile, currentProfileName. rewrite H; [done|].
    rewrite setMode_known. done.
Qed.

Lemma setMode_pins_the_profile_witness :
  setMode "fast" init = init.
Proof.
  apply (proj1 (setMode_pins_the_profile "fast" init)); done.
Defined.

(** The effective mode shown by [getStatus] is only refreshed in
    automatic mode: after a switch from automatic to a fixed mode it
    keeps showing the mode computed last, whatever telemetry follows and
    whatever profile is pinned. *)
Theorem status_shows_last_automatic_mode s q p
    (es : list ContextManager.Telemetry) :
  currentMode s = Auto → _effectiveMode s = Some q →
  let s' := runEvents (Telemetry <$> es) (setMode (modeName (Fixed p)) s) in
  st_effectiveMode (getStatus s') = Fixed q
  ∧ st_mode (getStatus s') = Fixed p
  ∧ st_profile (getStatus s') = profiles p.
Proof.
  intros Ha Hq s'.
  assert (∀ s0, currentMode s0 = Fixed p → _effectiveMode s0 = Some q →
            currentMode (runEvents (Telemetry <$> es) s0) = Fixed p
            ∧ _effectiveMode (runEvents (Telemetry <$> es) s0) = Some q) as H.
  { induction es as [|e es IH]; intros s0 H0 H1; simpl; [done|].
    destruct (telemetry_in_fixed_mode e s0 p H0) as [H2 H3].
    apply IH; [done|]. by rewrite H3. }
  destruct (H (setMode (modeName (Fixed p)) s)) as [Hm He].
  { rewrite setMode_known. done. }
  { rewrite setMode_known. done. }
  subst s'. unfold getStatus, getProfile, currentProfileName.
  cbn [st_effectiveMode st_mode st_profile]. by rewrite He, Hm.
Qed.

Lemma status_shows_last_automatic_mode_witness :
  st_effectiveMode
    (getStatus
       (runEvents (Telemetry <$> [])
          (setMode (modeName (Fixed Turbo))
             (onTelemetry (BatteryChange (mkBattery false 0.15)) init))))
  = Fixed Eco.
Proof.
  apply (proj1 (status_shows_last_automatic_mode
                  (onTelemetry (BatteryChange (mkBattery false 0.15)) init)
                  Eco Turbo [] eq_refl
                  ltac:(simpl; f_equal; apply effectiveModeOf_eco;
                        left; simpl; split; [done|lra]))).
Defined.

(** X16. A connection that reports no downlink, or a downlink of 0, is
    recorded with a downlink of 10. So in automatic mode, on a charging
    battery with less than half of the memory used, such a connection
    without data saver and not of type 2g or slow-2g gives the turbo
    profile. *)
Theorem missing_downlink_counts_as_fast (conn : Connection) s :
  c_downlink conn = None ∨ c_downlink conn = Some 0 →
  downlink (network (contextData (_updateNetwork conn s))) = 10
  ∧ (currentMode s = Auto →
     charging (battery (contextData s)) = true →
     usedPercent (memory (contextData s)) < 0.5 →
     c_saveData conn = None ∨ c_saveData conn = Some false →
     c_effectiveType conn ≠ Some "2g"%string →
     c_effectiveType conn ≠ Some "slow-2g"%string →
     getProfile (_updateNetwork conn s) = profiles Turbo).
Proof.
  intros Hdl.
  assert (downlink (network (contextData (_updateNetwork conn s))) = 10) as H10.
  { destruct s as [[p|] c eff]; simpl;
      destruct Hdl as [-> | ->]; try done;
      by rewrite bool_decide_eq_true_2. }
  split; [exact H10|].
  intros Ha Hch Hmem Hsd H2g Hs2g.
  destruct (onTelemetry_auto (NetworkChange conn) s Ha) as [_ Hp].
  simpl in Hp. rewrite Hp. f_equal.
  assert (¬ ecoCondition (contextData (_updateNetwork conn s))) as Hne.
  { destruct s as [m c eff]. simpl in *. subst m. simpl.
    unfold ecoCondition. simpl. intros [[Hc _]|[Hs|[Ht|[Ht|Hm]]]].
    - congruence.
    - destruct Hsd as [Hsd|Hsd]; rewrite Hsd in Hs; discriminate.
    - destruct (c_effectiveType conn) as [t|]; [|discriminate].
      destruct (String.eqb_spec t ""); [discriminate|]. congruence.
    - destruct (c_effectiveType conn) as [t|]; [|discriminate].
      destruct (String.eqb_spec t ""); [discriminate|]. congruence.
    - lra. }
  apply (effectiveModeOf_turbo _ Hne). unfold turboCondition.
  rewrite H10.
  destruct s as [m c eff]. simpl in *. subst m. simpl.
  split; [done|]. split; [right; lra|done].
Qed.

Lemma missing_downlink_counts_as_fast_witness :
  getProfile (_updateNetwork (mkConnection (Some "3g"%string) (Some 0) None)
                (_checkMemory (Some (1, 4)) init))
  = profiles Turbo.
Proof.
  apply (proj2 (missing_downlink_counts_as_fast
                  (mkConnection (Some "3g"%string) (Some 0) None)
                  (_checkMemory (Some (1, 4)) init) (or_intror eq_refl)));
    try done.
  - simpl. lra.
  - by left.
Defined.

End ContextManagerMore.


(* ===================================================================== *)
(** * Further properties of the cursor tracker                            *)
(* ===================================================================== *)

Section CursorTrackerMore.

Import CursorTracker.
Local Open Scope R_scope.

(** X17. The data handed to the listeners never report a deceleration:
    [_onMouseMove] stores the new velocity as the last velocity before it
    builds the data, so [_isDecelerating] compares the speed with 0.8
    times itself. *)
Theorem notified_data_never_decelerating (atan2 : R → R → R)
    (clock clock' x y : R) (s : State) d :
  (_onMouseMove atan2 clock clock' x y s).2 = Some d →
  d_isDecelerating d = false.
Proof.
  unfold _onMouseMove. case_bool_decide; [done|]. simpl.
  intros [= <-]. simpl. unfold _isDecelerating. simpl.
  apply bool_decide_eq_false.
  match goal with |- ¬ (?a < _) => assert (0 <= a) by apply sqrt_pos end.
  lra.
Qed.

Lemma notified_data_never_decelerating_witness :
  ∃ d, (_onMouseMove (λ _ _, 0) 1020 1021 5 5 (init 1000)).2 = Some d
       ∧ d_isDecelerating d = false.
Proof.
  assert (∃ d, (_onMouseMove (λ _ _, 0) 1020 1021 5 5 (init 1000)).2 = Some d)
    as [d Hd].
  { unfold _onMouseMove, CAPTURE_INTERVAL.
    rewrite bool_decide_eq_false_2 by (simpl; lra). eauto. }
  exists d. split; [exact Hd|].
  exact (notified_data_never_decelerating _ _ _ _ _ _ _ Hd).
Defined.

(** X18. A mouse move that comes less than 16 ms after the last accepted
    one is dropped: the state is unchanged and no listener is called.
    Otherwise the sample is accepted: the position is that of the event,
    the clock is remembered, the velocity times the elapsed seconds is
    the displacement since the last accepted sample, and the speed
    reported is the distance moved divided by the elapsed seconds. *)
Theorem mouse_move_throttle_and_velocity (atan2 : R → R → R)
    (clock clock' x y : R) (s : State) :
  (clock - lastTimestamp s < 16 →
   _onMouseMove atan2 clock clock' x y s = (s, None))
  ∧ (16 <= clock - lastTimestamp s →
     let dt := (clock - lastTimestamp s) / 1000 in
     let s' := (_onMouseMove atan2 clock clock' x y s).1 in
     position s' = (x, y)
     ∧ lastPosition s' = (x, y)
     ∧ lastTimestamp s' = clock
     ∧ (velocity s').1 * dt = x - (lastPosition s).1
     ∧ (velocity s').2 * dt = y - (lastPosition s).2
     ∧ ∃ d, (_onMouseMove atan2 clock clock' x y s).2 = Some d
            ∧ d_position d = (x, y)
            ∧ d_timestamp d = clock'
            ∧ d_speed d
              = sqrt ((x - (lastPosition s).1) ^ 2
                      + (y - (lastPosition s).2) ^ 2) / dt).
Proof.
  unfold _onMouseMove, CAPTURE_INTERVAL. split.
  - intros H. by rewrite bool_decide_eq_true_2 by lra.
  - intros H. rewrite bool_decide_eq_false_2 by lra. simpl.
    set (dt := (clock - lastTimestamp s) / 1000).
    assert (0 < dt) as Hdt by (subst dt; lra).
    repeat split; try (field; lra).
    eexists. split; [done|]. simpl. repeat split.
    apply sqrt_of_square.
    + apply Rmult_le_pos; [apply sqrt_pos|].
      apply Rlt_le, Rinv_0_lt_compat, Hdt.
    + set (dx := x - (lastPosition s).1). set (dy := y - (lastPosition s).2).
      assert (sqrt (dx * (dx * 1) + dy * (dy * 1))
              * sqrt (dx * (dx * 1) + dy * (dy * 1))
              = dx * (dx * 1) + dy * (dy * 1)) as Hsq by (apply sqrt_sqrt; nra).
      transitivity ((sqrt (dx * (dx * 1) + dy * (dy * 1))
                     * sqrt (dx * (dx * 1) + dy * (dy * 1))) / (dt * dt));
        [rewrite Hsq|]; field; lra.
Qed.

Lemma mouse_move_throttle_and_velocity_witness :
  _onMouseMove (λ _ _, 0) 1010 1010 5 5 (init 1000) = (init 1000, None).
Proof.
  apply (proj1 (mouse_move_throttle_and_velocity (λ _ _, 0) 1010 1010 5 5
                  (init 1000))).
  simpl. lra.
Defined.

End CursorTrackerMore.

(* ===================================================================== *)
(** * Further properties of the link predictor                            *)
(* ===================================================================== *)

Section PredictorScores.

Import Predictor.
Local Open Scope R_scope.

Lemma ln2_pos : 0 < ln 2.
Proof. rewrite <- ln_1. apply ln_increasing; lra. Qed.

Lemma log2_monotone (x y : R) : 0 < x → x <= y → log2 x <= log2 y.
Proof.
  intros Hx [Hlt| ->]; [|lra]. unfold log2.
  apply Rmult_le_compat_r; [apply Rlt_le, Rinv_0_lt_compat, ln2_pos|].
  apply Rlt_le, ln_increasing; lra.
Qed.

Lemma fittsScore_bounds (d w h : R) :
  0 <= _calculateFittsScore d w h <= 100.
Proof.
  unfold _calculateFittsScore. case_bool_decide; [lra|].
  split; [apply Rmax_l|]. apply Rmax_lub; [lra|apply Rmin_l].
Qed.

(** X20. The Fitts score lies in [0,100]; it is 0 for a link whose
    smaller side is not positive and 100 when the cursor is on the
    centre of a link with positive sides; and it never increases when
    the distance grows. *)
Theorem fittsScore_bounded_and_antitone (w h : R) :
  (∀ d, 0 <= _calculateFittsScore d w h <= 100)
  ∧ (Rmin w h <= 0 → ∀ d, _calculateFittsScore d w h = 0)
  ∧ (0 < Rmin w h →
     _calculateFittsScore 0 w h = 100
     ∧ ∀ d1 d2, 0 <= d1 → d1 <= d2 →
         _calculateFittsScore d2 w h <= _calculateFittsScore d1 w h).
Proof.
  split; [intros d; apply fittsScore_bounds|]. split.
  - intros Hm d. unfold _calculateFittsScore. by rewrite bool_decide_eq_true_2.
  - intros Hm. unfold _calculateFittsScore.
    rewrite bool_decide_eq_false_2 by lra. split.
    + replace (0 / Rmin w h + 1) with 1 by (field; lra).
      unfold log2. rewrite ln_1.
      replace (100 - 0 / ln 2 * 15) with 100
        by (pose proof ln2_pos; field; lra).
      rewrite Rmin_left by lra. apply Rmax_right. lra.
    + intros d1 d2 H1 H12.
      apply Rle_max_compat_l, Rle_min_compat_l.
      assert (log2 (d1 / Rmin w h + 1) <= log2 (d2 / Rmin w h + 1)); [|lra].
      assert (0 < / Rmin w h) as Hinv by (by apply Rinv_0_lt_compat).
      apply log2_monotone; unfold Rdiv; nra.
Qed.

Lemma fittsScore_bounded_and_antitone_witness :
  _calculateFittsScore 0 200 30 = 100.
Proof.
  apply (proj1 (proj2 (proj2 (fittsScore_bounded_and_antitone 200 30))
                  ltac:(rewrite Rmin_right; lra))).
Defined.

(** X21. For a candidate that is scored, the Fitts and proximity factors
    lie in [0,100] and the intention factor is not negative; the
    composite score before the boost is not negative whenever the context
    and history factors are not. The context factor lies in [30,80] for
    a link whose top edge is inside a viewport of positive height. *)
Theorem score_factors_are_bounded env cd s data total b :
  totalScoreOf env cd s data = Some (total, b) →
  (0 <= fittsScore b <= 100
   ∧ 0 <= intentionScore b
   ∧ 0 <= proximityScore b <= 100)
  ∧ (0 <= contextScore b → 0 <= historyScore b → 0 <= total)
  ∧ (0 < innerHeight env → 0 <= liveTop (element data) <= innerHeight env →
     30 <= contextScore b <= 80).
Proof.
  unfold totalScoreOf. case_bool_decide; [done|]. intros [= <- <-]. simpl.
  set (d := sqrt _).
  set (maxD := sqrt (innerWidth env * _ + _)).
  assert (0 <= d) as Hd by apply sqrt_pos.
  assert (0 <= d / maxD) as Hq.
  { destruct (Req_dec maxD 0) as [->|Hne]; [rewrite Rdiv_0_r; lra|].
    assert (0 <= maxD) by apply sqrt_pos.
    apply Rmult_le_pos; [done|]. apply Rlt_le, Rinv_0_lt_compat. lra. }
  pose proof (fittsScore_bounds d (width (rect data)) (height (rect data))) as Hf.
  set (f := _calculateFittsScore _ _ _) in *.
  set (i := Tracker.getIntentionScore _ _ _) in *.
  clearbody i f d maxD.
  assert (0 <= Rmax 0 (i * 100)) as Hi' by apply Rmax_l.
  assert (0 <= Rmax 0 (100 - d / maxD * 100) <= 100) as Hp
    by (split; [apply Rmax_l|apply Rmax_lub; lra]).
  split; [done|]. split; [intros Hc Hh; lra|].
  intros Hh Htop. unfold _getContextScore.
  destruct (inMainContent (element data)); [lra|].
  destruct (inNavigation (element data)); [lra|].
  assert (0 <= liveTop (element data) / innerHeight env <= 1) as Hv.
  { assert (0 < / innerHeight env) by (by apply Rinv_0_lt_compat).
    split; [unfold Rdiv; nra|].
    apply (Rmult_le_reg_r (innerHeight env)); [done|].
    unfold Rdiv. rewrite Rmult_assoc, Rinv_l by lra. lra. }
  lra.
Qed.

Lemma score_factors_are_bounded_witness :
  0 <= 29.25.
Proof.
  apply (proj1 (proj2 (score_factors_are_bounded
                         (Scenario.envAt 2000 (Scenario.restingAt 650))
                         (Tracker.getData (Scenario.restingAt 650))
                         init (Scenario.linkIn Scenario.inNav 84)
                         29.25 (mkBreakdown 40 0 55 30 40)
                         (far_candidate_total 84 init (lookup_empty _)))));
    simpl; lra.
Defined.

Lemma insertDesc_perm (x : Result) (l : list Result) :
  insertDesc x l ≡ₚ x :: l.
Proof.
  induction l as [|y l IH]; simpl; [done|].
  case_bool_decide; [|done]. rewrite IH. apply Permutation_swap.
Qed.

Lemma insertDesc_sorted (x : Result) (l : list Result) :
  StronglySorted (λ a b, res_score b <= res_score a) l →
  StronglySorted (λ a b, res_score b <= res_score a) (insertDesc x l).
Proof.
  induction 1 as [|y l Hl IH Hy]; simpl.
  - repeat constructor.
  - case_bool_decide as Hxy.
    + constructor; [done|]. rewrite insertDesc_perm.
      constructor; [lra|done].
    + constructor; [by constructor|].
      constructor; [lra|].
      eapply Forall_impl; [exact Hy|]. simpl. intros z Hz. lra.
Qed.

Lemma insertDesc_ties (v : R) (x : Result) (l : list Result) :
  filter (λ r, res_score r = v) (insertDesc x l)
  = filter (λ r, res_score r = v) (x :: l).
Proof.
  induction l as [|y l IH]; simpl; [done|].
  case_bool_decide as Hxy; [|done].
  rewrite !filter_cons in *. rewrite IH.
  destruct (decide (res_score y = v)), (decide (res_score x = v)); try done.
  lra.
Qed.

Lemma sortDesc_is_a_stable_descending_sort_aux (l : list Result) :
  StronglySorted (λ a b, res_score b <= res_score a) (sortDesc l).
Proof.
  unfold sortDesc. induction l as [|x l IH]; simpl; [constructor|].
  by apply insertDesc_sorted.
Qed.

(** X22. The sort applied to the results returns the same results in
    another order (nothing is lost or duplicated), with scores that never
    increase along the list, and keeps results of equal score in the
    order in which the catalogue produced them. *)
Theorem sortDesc_is_a_stable_descending_sort (l : list Result) :
  sortDesc l ≡ₚ l
  ∧ StronglySorted (λ a b, res_score b <= res_score a) (sortDesc l)
  ∧ ∀ v, filter (λ r, res_score r = v) (sortDesc l)
         = filter (λ r, res_score r = v) l.
Proof.
  unfold sortDesc. induction l as [|x l (IH1 & IH2 & IH3)]; simpl.
  - repeat split; constructor.
  - split; [|split].
    + by rewrite insertDesc_perm, IH1.
    + by apply insertDesc_sorted.
    + intros v. rewrite insertDesc_ties, !filter_cons, IH3. done.
Qed.

Lemma notifyPrefetcher_length (l : list Result) :
  l ≠ [] → (1 ≤ length (_notifyPrefetcher (take 5 l)) ≤ 5)%nat.
Proof.
  intros Hl. unfold _notifyPrefetcher.
  rewrite List.length_map, length_take.
  destruct l; [done|]. simpl length. lia.
Qed.

(** X23. A batch that runs returns its results sorted by descending
    score and sends the service worker the first five of them as
    (url, score) pairs; it sends nothing when there is no result. A
    message therefore has between one and five entries. *)
Theorem batch_sends_the_top_five env cd s results :
  returned (calculateScores env cd s).2 = Some results →
  StronglySorted (λ a b, res_score b <= res_score a) results
  ∧ message (calculateScores env cd s).2
    = match results with
      | [] => None
      | _ => Some (map (λ l, (res_url l, res_score l)) (take 5 results))
      end
  ∧ ∀ msg, message (calculateScores env cd s).2 = Some msg →
           (1 ≤ length msg ≤ 5)%nat.
Proof.
  unfold calculateScores. case_bool_decide; [done|].
  destruct (match scrollSpeed env with
            | Some v => bool_decide (100 < v) | None => false end); [done|].
  destruct (scoreLinks env cd _ _ []) as [[ls s1] rs]. simpl.
  intros [= <-].
  split; [apply sortDesc_is_a_stable_descending_sort_aux|].
  split; [done|].
  intros msg. destruct (sortDesc rs) as [|x l]; [done|]. intros [= <-].
  apply (notifyPrefetcher_length (x :: l)). done.
Qed.

Lemma currentInterval_range env s : 80 <= currentInterval env s <= 300.
Proof.
  unfold currentInterval, BATCH_INTERVAL_MS.
  destruct (connection env) as [[sd ty]|]; [destruct sd|];
    repeat match goal with
           | |- context [if ?b then _ else _] => destruct b
           end; lra.
Qed.

(** X24. The interval between two batches is between 80 and 300 ms. A
    call that comes before the interval has elapsed changes nothing and
    emits nothing; so does, apart from the time of the last batch which
    it resets, a call made while the page scrolls faster than 100. *)
Theorem batch_is_throttled env cd s :
  80 <= currentInterval env s <= 300
  ∧ (now env - lastBatchTime s < currentInterval env s →
     calculateScores env cd s = (s, mkBatchOutput None None))
  ∧ (currentInterval env s <= now env - lastBatchTime s →
     ∀ v, scrollSpeed env = Some v → 100 < v →
       calculateScores env cd s
       = (withLastBatchTime s (now env), mkBatchOutput None None)).
Proof.
  split; [apply currentInterval_range|]. unfold calculateScores. split.
  - intros H. by rewrite bool_decide_eq_true_2.
  - intros H v Hv Hfast. rewrite bool_decide_eq_false_2 by lra.
    rewrite Hv. by rewrite bool_decide_eq_true_2.
Qed.

Lemma batch_is_throttled_witness :
  calculateScores (Scenario.envAt 50 (Scenario.restingAt 200))
    (Tracker.getData (Scenario.restingAt 200)) init
  = (init, mkBatchOutput None None).
Proof.
  apply (proj1 (proj2 (batch_is_throttled _ _ _))).
  rewrite scenario_interval. simpl. lra.
Defined.

Lemma no_timer_registered_none_pending u s :
  timersConsistent s → graceTimers s !! u = None → timersFor u s = 0%nat.
Proof.
  intros [_ Hreg] Hnone. unfold timersFor.
  destruct (filter (λ t, t_url t = u) (pendingTimeouts s)) as [|t l] eqn:E;
    [done|].
  assert (t ∈ filter (λ t, t_url t = u) (pendingTimeouts s)) as Hin
    by (rewrite E; by left).
  apply list_elem_of_filter in Hin as [Hu Hin]. apply Hreg in Hin.
  rewrite Hu in Hin. congruence.
Qed.

(** X25. In every state the predictor reaches, the grace boost is at
    least 0 and below 50. When it is not 0, no timeout was waiting for
    the URL before the call, exactly one is waiting after it, and it is
    due 200 ms after the time of the batch. *)
Theorem grace_boost_is_small_and_starts_one_timer env u (cur : R) cd s :
  reachable s →
  0 <= (_getGraceBoost env u cur cd s).1 < 50
  ∧ ((_getGraceBoost env u cur cd s).1 ≠ 0 →
     timersFor u s = 0%nat
     ∧ timersFor u (_getGraceBoost env u cur cd s).2 = 1%nat
     ∧ graceTimers (_getGraceBoost env u cur cd s).2 !! u
       = Some (mkTimeout u (now env + 200))).
Proof.
  intros [Hrange Htimers]%reachable_invariants.
  destruct (getGraceBoost_outcome env u cur cd s)
    as [|prev Hsp Hcur Hfree Hprev Hlt].
  - split; [lra|done].
  - destruct (Hrange _ _ Hprev) as [_ Hhi]. split; [lra|]. intros _.
    pose proof (no_timer_registered_none_pending u s Htimers Hfree) as H0.
    split; [done|]. split.
    + unfold timersFor in *. simpl. rewrite filter_app, length_app, H0.
      rewrite filter_cons, filter_nil. simpl.
      by rewrite decide_True.
    + simpl. apply lookup_insert_eq.
Qed.

Lemma grace_boost_is_small_and_starts_one_timer_witness :
  0 <= (_getGraceBoost (Scenario.envAt 2000 (Scenario.restingAt 170))
          Scenario.linkUrl 54.05 (Tracker.getData (Scenario.restingAt 170))
          (Scenario.batchAt 1000 200 (Scenario.pageWith Scenario.inMain)).1).1
  < 50.
Proof.
  apply (proj1 (grace_boost_is_small_and_starts_one_timer _ _ _ _ _
                  (first_batch_reachable Scenario.inMain))).
Defined.

End PredictorScores.

Section CatalogueExample.

Import Predictor Scenario CatalogueScenario.
Local Open Scope R_scope.

(** The composite score of a link of the catalogue scenario when the
    cursor rests on its centre. *)
Lemma totalScoreOf_centre e (u : string) (t : R) s :
  historyCache s !! u = None →
  totalScoreOf (envAt t (restingAt 200)) (Tracker.getData (restingAt 200)) s
    (linkAt e u)
  = Some (81 + _getContextScore (envAt t (restingAt 200)) e * 0.10,
          mkBreakdown 100 100 100
            (_getContextScore (envAt t (restingAt 200)) e) 40).
Proof.
  intros Hh.
  pose proof (totalScoreOf_resting e 0 t 200 0 0%nat
                (mkState (links s) (scores s) (graceTimers s) ∅
                         (lastBatchTime s) (isCharging s) (pendingTimeouts s))) as Ht.
  specialize (Ht ltac:(lra) ltac:(lra) ltac:(lra) ltac:(simpl; lra)
                 ltac:(lia) ltac:(done)).
  rewrite (bool_decide_eq_true_2 (200 = 200)) in Ht by done.
  simpl INR in Ht.
  replace (100 - 0 * 15) with 100 in Ht by lra.
  replace (100 - 0 / 1000 * 100) with 100 in Ht by lra.
  unfold totalScoreOf, _getHistoryScore in *. simpl in *. rewrite Hh.
  rewrite lookup_empty in Ht.
  destruct (bool_decide _); [done|].
  injection Ht as Ht1 Ht2 Ht3 Ht4. rewrite Ht2, Ht3, Ht4.
  f_equal. f_equal. lra.
Qed.

Lemma scoreLinks_cons_results env cd data (rest : list LinkData) s
    (results : list Result) :
  (scoreLinks env cd (data :: rest) s results).2
  = (scoreLinks env cd rest (scoreLink env cd data s).1.2
       match (scoreLink env cd data s).2 with
       | Some x => results ++ [x]
       | None => results
       end).2.
Proof.
  simpl. destruct (scoreLink env cd data s) as [[d' s1] r]. simpl.
  by destruct (scoreLinks env cd rest s1 _) as [[? ?] ?].
Qed.

Lemma scoreLinks_centre (t : R) (ls : list (Element * string)) s results :
  Forall (λ p, 0 <= _getContextScore (envAt t (restingAt 200)) p.1 <= 100) ls →
  NoDup (map snd ls) →
  Forall (λ p, scores s !! p.2 = None) ls →
  historyCache s = ∅ →
  (scoreLinks (envAt t (restingAt 200)) (Tracker.getData (restingAt 200))
     (map (λ p, linkAt p.1 p.2) ls) s results).2
  = results
    ++ map (λ p, mkResult p.2 p.1
                   (81 + _getContextScore (envAt t (restingAt 200)) p.1 * 0.10))
         ls.
Proof.
  revert s results.
  induction ls as [|[e u] ls IH]; intros s results Hctx Hnd Hfresh Hh.
  - simpl. by rewrite app_nil_r.
  - rewrite map_cons, scoreLinks_cons_results. cbn [fst snd].
    inversion Hctx as [|? ? Hc Hctx']; subst. simpl in Hc.
    inversion Hnd as [|? ? Hu Hnd']; subst.
    inversion Hfresh as [|? ? Hf Hfresh']; subst. simpl in Hf.
    erewrite scoreLink_scored;
      [|reflexivity
       |apply totalScoreOf_centre; by rewrite Hh
       |by apply getGraceBoost_fresh].
    rewrite Rplus_0_r. rewrite Rmin_right by lra.
    rewrite bool_decide_eq_true_2 by lra.
    cbn [fst snd]. rewrite IH; [by rewrite <- app_assoc|done|done| |done].
    apply Forall_forall. intros [e' u'] Hin. simpl.
    rewrite lookup_insert_ne.
    + by apply (proj1 (Forall_forall _ _) Hfresh' (e', u')).
    + intros <-. apply Hu. by apply (list_elem_of_fmap_2 snd) in Hin.
Qed.

Lemma calculateScores_returned env cd s :
  currentInterval env s <= now env - lastBatchTime s →
  scrollSpeed env = None →
  returned (calculateScores env cd s).2
  = Some (sortDesc (scoreLinks env cd (links s)
                      (withLastBatchTime s (now env)) []).2).
Proof.
  intros Ht Hs. unfold calculateScores.
  rewrite bool_decide_eq_false_2 by lra. rewrite Hs. simpl links.
  by destruct (scoreLinks _ _ _ _ _) as [[? ?] ?].
Qed.

Lemma sixLinks_returned :
  returned (calculateScores (envAt 1000 (restingAt 200))
              (Tracker.getData (restingAt 200)) pageOfSix).2
  = Some [mkResult "https://a.com/2" inMain (81 + 80 * 0.10);
          mkResult "https://a.com/4" inMain (81 + 80 * 0.10);
          mkResult "https://a.com/6" inMain (81 + 80 * 0.10);
          mkResult "https://a.com/1" inNav (81 + 30 * 0.10);
          mkResult "https://a.com/3" inNav (81 + 30 * 0.10);
          mkResult "https://a.com/5" inNav (81 + 30 * 0.10)].
Proof.
  rewrite calculateScores_returned;
    [|rewrite scenario_interval; simpl; lra|done].
  pose proof (scoreLinks_centre 1000
                [(inNav, "https://a.com/1"); (inMain, "https://a.com/2");
                 (inNav, "https://a.com/3"); (inMain, "https://a.com/4");
                 (inNav, "https://a.com/5"); (inMain, "https://a.com/6")]%string
                (withLastBatchTime pageOfSix 1000) []) as H.
  change (map (λ p : Element * string, linkAt p.1 p.2) _) with sixLinks in H.
  change (now (envAt 1000 (restingAt 200))) with 1000.
  change (links pageOfSix) with sixLinks.
  rewrite H.
  - unfold sortDesc. simpl.
    change (_getContextScore (envAt 1000 (restingAt 200)) inNav) with 30.
    change (_getContextScore (envAt 1000 (restingAt 200)) inMain) with 80.
    repeat (first [rewrite bool_decide_eq_true_2 by lra
                  |rewrite bool_decide_eq_false_2 by lra]; simpl).
    done.
  - repeat (apply Forall_cons_2;
            [unfold _getContextScore, inNav, inMain; simpl; lra|]).
    apply Forall_nil_2.
  - apply (bool_decide_unpack _). by vm_compute.
  - repeat (apply Forall_cons_2; [done|]). apply Forall_nil_2.
  - done.
Qed.

Lemma batch_sends_the_top_five_witness :
  message (calculateScores (envAt 1000 (restingAt 200))
             (Tracker.getData (restingAt 200)) pageOfSix).2
  = Some [("https://a.com/2"%string, 81 + 80 * 0.10);
          ("https://a.com/4"%string, 81 + 80 * 0.10);
          ("https://a.com/6"%string, 81 + 80 * 0.10);
          ("https://a.com/1"%string, 81 + 30 * 0.10);
          ("https://a.com/3"%string, 81 + 30 * 0.10)].
Proof.
  apply (proj1 (proj2 (batch_sends_the_top_five
                         (envAt 1000 (restingAt 200))
                         (Tracker.getData (restingAt 200)) pageOfSix _
                         sixLinks_returned))).
Defined.

End CatalogueExample.


(* ===================================================================== *)
(** * Properties of the trust list                                        *)
(* ===================================================================== *)

Section TrustListMore.

Import TrustList TrustListOps.

Implicit Types (settings : gmap string Level) (url : Url.t).

Lemma extractDomain_www (u : Url.parts) (d : string) :
  Url.hostname u = ("www." +:+ d)%string →
  _extractDomain (Url.Parsed u) = d.
Proof.
  intros Hh. unfold _extractDomain. rewrite Hh.
  rewrite (startsWith_app "www." d).
  rewrite string_length_app. simpl String.length.
  replace (4 + String.length d - 4)%nat with (String.length d) by lia.
  apply (substring_skip "www." d).
Qed.

Lemma extractDomain_plain (u : Url.parts) :
  Url.startsWith (Url.hostname u) "www." = false →
  _extractDomain (Url.Parsed u) = Url.hostname u.
Proof. intros H. unfold _extractDomain. by rewrite H. Qed.

(** X26. A level set with [setTrustLevel] is the level of every URL with
    the same extracted domain, whatever the built-in lists say about it,
    and the level of the URLs of other domains is unchanged; [reset]
    brings every URL back to its built-in level. *)
Theorem explicit_setting_overrides_lists settings url url' (level : Level) :
  (_extractDomain url' = _extractDomain url →
   getTrustLevel (setTrustLevel url level settings) url' = level)
  ∧ (_extractDomain url' ≠ _extractDomain url →
     getTrustLevel (setTrustLevel url level settings) url'
     = getTrustLevel settings url')
  ∧ getTrustLevel (reset (setTrustLevel url level settings)) url'
    = getTrustLevel ∅ url'.
Proof.
  unfold getTrustLevel, setTrustLevel, reset. repeat split.
  - intros ->. by rewrite lookup_insert_eq.
  - intros Hne. by rewrite lookup_insert_ne.
Qed.

Lemma explicit_setting_overrides_lists_witness :
  getTrustLevel (setTrustLevel Scenario.trackerUrl Trusted ∅)
    (Scenario.page "ads.doubleclick.net" "/other") = Trusted.
Proof.
  apply (proj1 (explicit_setting_overrides_lists ∅ Scenario.trackerUrl
                  (Scenario.page "ads.doubleclick.net" "/other") Trusted)).
  reflexivity.
Defined.

Lemma matchesDomain_subdomain (entry sub : string) :
  matchesDomain entry entry = true
  ∧ matchesDomain (sub +:+ "." +:+ entry) entry = true.
Proof.
  unfold matchesDomain. split.
  - by rewrite String.eqb_refl.
  - rewrite (endsWith_app sub ("." +:+ entry)). apply orb_true_r.
Qed.

Lemma existsb_matches (domain entry : string) (l : list string) :
  In entry l → matchesDomain domain entry = true →
  existsb (matchesDomain domain) l = true.
Proof. intros Hin Hm. apply existsb_exists. eauto. Qed.

(** X27. Without an explicit setting, a URL whose extracted domain is a
    known tracker or a blacklisted domain, or any subdomain of one, is
    untrusted: neither prefetch nor prerender is allowed for it. *)
Theorem trackers_and_blacklist_are_untrusted settings url (entry sub : string) :
  settings !! _extractDomain url = None →
  In entry KNOWN_TRACKERS ∨ In entry BLACKLISTED →
  _extractDomain url = entry
  ∨ _extractDomain url = (sub +:+ "." +:+ entry)%string →
  getTrustLevel settings url = Untrusted
  ∧ canPrefetch settings url = false
  ∧ canPrerender settings url = false.
Proof.
  intros Hnone Hentry Hdom.
  assert (matchesDomain (_extractDomain url) entry = true) as Hm.
  { destruct (matchesDomain_subdomain entry sub) as [H1 H2].
    by destruct Hdom as [-> | ->]. }
  assert (getTrustLevel settings url = Untrusted) as Hl.
  { unfold getTrustLevel. rewrite Hnone.
    destruct Hentry as [Hin|Hin].
    - unfold _isKnownTracker. by rewrite (existsb_matches _ entry).
    - destruct (_isKnownTracker _); [done|].
      unfold _isBlacklisted. by rewrite (existsb_matches _ entry). }
  unfold canPrefetch, canPrerender. rewrite Hl. done.
Qed.

Lemma trackers_and_blacklist_are_untrusted_witness :
  getTrustLevel ∅ Scenario.trackerUrl = Untrusted
  ∧ canPrefetch ∅ Scenario.trackerUrl = false
  ∧ canPrerender ∅ Scenario.trackerUrl = false.
Proof.
  apply (trackers_and_blacklist_are_untrusted ∅ Scenario.trackerUrl
           "doubleclick.net" "ads").
  - reflexivity.
  - left. simpl. auto.
  - right. reflexivity.
Defined.

(** X28. The trust selector of the popup writes the level under the full
    host name of the tab, while the trust list reads it under the host
    name without a leading [www.]. For a host that does not start with
    [www.] the selected level becomes the level of the tab's URL; for a
    host [www.d] the selection leaves the level of the tab's URL as it
    was. *)
Theorem popup_selection_and_www (u : Url.parts) (value : Level) settings :
  (Url.startsWith (Url.hostname u) "www." = false →
   getTrustLevel (popupSelectTrust (Some (Url.Parsed u)) value settings)
     (Url.Parsed u) = value)
  ∧ (∀ d, Url.hostname u = ("www." +:+ d)%string →
       getTrustLevel (popupSelectTrust (Some (Url.Parsed u)) value settings)
         (Url.Parsed u)
       = getTrustLevel settings (Url.Parsed u)).
Proof.
  split.
  - intros Hplain. unfold getTrustLevel, popupSelectTrust.
    rewrite (extractDomain_plain u Hplain). by rewrite lookup_insert_eq.
  - intros d Hw. unfold getTrustLevel, popupSelectTrust.
    rewrite (extractDomain_www u d Hw), lookup_insert_ne; [done|].
    rewrite Hw. intros Heq.
    apply (f_equal String.length) in Heq.
    rewrite string_length_app in Heq. simpl in Heq. lia.
Qed.

Lemma popup_selection_and_www_witness :
  getTrustLevel
    (popupSelectTrust (Some (Scenario.page "www.example.com" "/")) Trusted ∅)
    (Scenario.page "www.example.com" "/")
  = getTrustLevel ∅ (Scenario.page "www.example.com" "/").
Proof.
  apply (proj2 (popup_selection_and_www
                  (Url.mkParts "https:" "www.example.com" "" "/" "" "")
                  Trusted ∅) "example.com").
  reflexivity.
Defined.

(** X29. [promoteIfFrequent] promotes only with at least 10 visits and
    only what is neutral at that moment: it returns [false] and changes
    nothing below 10 visits, for an untrusted argument and for a trusted
    one. When it promotes a bare domain name (a string the URL parser
    rejects), the URLs whose extracted domain is that name become
    trusted, so prerender is allowed for them. *)
Theorem promotion_needs_ten_visits_and_neutral settings (domain : Url.t)
    (visitCount : nat) :
  ((visitCount < 10)%nat ∨ getTrustLevel settings domain ≠ Neutral →
   promoteIfFrequent domain visitCount settings = (false, settings))
  ∧ ((10 ≤ visitCount)%nat → getTrustLevel settings domain = Neutral →
     (promoteIfFrequent domain visitCount settings).1 = true
     ∧ ∀ name url, domain = Url.Unparseable name →
         _extractDomain url = name →
         canPrerender (promoteIfFrequent domain visitCount settings).2 url
         = true).
Proof.
  unfold promoteIfFrequent. split.
  - intros [Hlt|Hne].
    + apply Nat.leb_gt in Hlt. by rewrite Hlt.
    + rewrite (bool_decide_eq_false_2 _ Hne). by rewrite andb_false_r.
  - intros Hge Hn. apply Nat.leb_le in Hge.
    rewrite Hge, (bool_decide_eq_true_2 _ Hn). simpl. split; [done|].
    intros name url -> Hd. unfold canPrerender, getTrustLevel. simpl.
    by rewrite Hd, lookup_insert_eq.
Qed.

Lemma promotion_needs_ten_visits_and_neutral_witness :
  promoteIfFrequent (Url.Unparseable "doubleclick.net") 50 ∅ = (false, ∅).
Proof.
  apply (proj1 (promotion_needs_ten_visits_and_neutral ∅
                  (Url.Unparseable "doubleclick.net") 50)).
  right. by vm_compute.
Defined.

End TrustListMore.


(* ===================================================================== *)
(** * Properties of the learning database                                 *)
(* ===================================================================== *)

Section LearningMore.

Import LearningDB.
Local Open Scope R_scope.

Lemma recordClick_step (nowMs : Z) (u : Url.parts) (lt : R)
    (db : gmap string Pattern) (n : nat) (total : R) :
  (match db !! Url.hostname u with
   | Some p => domain p = Url.hostname u ∧ totalClicks p = n
               ∧ avgLoadTime p * INR n = total
   | None => n = 0%nat ∧ total = 0
   end) →
  ∃ p, recordClick nowMs (Url.Parsed u) lt db !! Url.hostname u = Some p
       ∧ domain p = Url.hostname u
       ∧ totalClicks p = S n
       ∧ avgLoadTime p * INR (S n) = total + lt
       ∧ lastVisit p = Some nowMs
       ∧ frequency p = _calculateFrequency p.
Proof.
  intros Hdb. unfold recordClick.
  assert (INR (S n) ≠ 0) as Hn by (apply not_0_INR; lia).
  destruct (db !! Url.hostname u) as [p0|] eqn:E.
  - destruct Hdb as (Hd & Hc & Ha).
    cbn [domain totalClicks avgLoadTime lastVisit frequency].
    rewrite Hd, lookup_insert_eq.
    eexists. split; [done|].
    cbn [domain totalClicks avgLoadTime lastVisit frequency]. rewrite Hc.
    replace (S n - 1)%nat with n by lia.
    repeat split; try done. rewrite <- Ha. field. exact Hn.
  - destruct Hdb as [-> ->].
    cbn [domain totalClicks avgLoadTime lastVisit frequency].
    rewrite lookup_insert_eq.
    eexists. split; [done|].
    cbn [domain totalClicks avgLoadTime lastVisit frequency].
    repeat split; try done.
    replace (1 - 1)%nat with 0%nat by lia. change (INR 0) with 0.
    field. exact Hn.
Qed.

(** X30. After the clicks on pages of one host have been recorded in an
    empty store, the record of the host counts them, its average load
    time is their arithmetic mean, and its frequency class is the one of
    that count (daily from 50, weekly from 20, monthly from 5, else
    rare). *)
Theorem recorded_average_is_the_mean (nowMs : Z) (u : Url.parts)
    (loadTimes : list R) :
  loadTimes ≠ [] →
  ∃ p,
    foldl (λ db lt, recordClick nowMs (Url.Parsed u) lt db) ∅ loadTimes
      !! Url.hostname u = Some p
    ∧ totalClicks p = length loadTimes
    ∧ avgLoadTime p = foldr Rplus 0 loadTimes / INR (length loadTimes)
    ∧ frequency p
      = (if (50 <=? length loadTimes)%nat then Daily
         else if (20 <=? length loadTimes)%nat then Weekly
         else if (5 <=? length loadTimes)%nat then Monthly
         else Rare).
Proof.
  intros Hne.
  assert (∀ (lts : list R) (lt : R) (db : gmap string Pattern) (n : nat)
            (total : R),
    (match db !! Url.hostname u with
     | Some p => domain p = Url.hostname u ∧ totalClicks p = n
                 ∧ avgLoadTime p * INR n = total
     | None => n = 0%nat ∧ total = 0
     end) →
    ∃ p, foldl (λ db lt, recordClick nowMs (Url.Parsed u) lt db) db (lt :: lts)
           !! Url.hostname u = Some p
         ∧ frequency p = _calculateFrequency p
         ∧ ∀ m, m = (n + S (length lts))%nat →
             totalClicks p = m
             ∧ avgLoadTime p * INR m = total + (lt + foldr Rplus 0 lts)) as H.
  { induction lts as [|lt' lts IH]; intros lt db n total Hdb;
      destruct (recordClick_step nowMs u lt db n total Hdb)
        as (p1 & Hp1 & Hd1 & Hc1 & Ha1 & _ & Hf1).
    - exists p1. split; [exact Hp1|]. split; [done|].
      intros m ->. replace (n + S (length (@nil R)))%nat with (S n)
        by (simpl; lia).
      split; [done|]. rewrite Ha1. simpl. lra.
    - destruct (IH lt' (recordClick nowMs (Url.Parsed u) lt db) (S n)
                  (total + lt)) as (p & Hp & Hf & Hm).
      { by rewrite Hp1. }
      exists p. split; [exact Hp|]. split; [done|].
      intros m ->.
      destruct (Hm (n + S (length (lt' :: lts)))%nat) as [Hc Ha];
        [simpl; lia|].
      split; [done|]. rewrite Ha. simpl. lra. }
  destruct loadTimes as [|lt lts]; [done|].
  destruct (H lts lt ∅ 0%nat 0) as (p & Hp & Hf & Hm).
  { by rewrite lookup_empty. }
  destruct (Hm (length (lt :: lts)) ltac:(simpl; lia)) as [Hc Ha].
  exists p. split; [exact Hp|]. split; [done|]. split.
  - assert (INR (length (lt :: lts)) ≠ 0) as Hn
      by (apply not_0_INR; simpl; lia).
    rewrite Rplus_0_l in Ha.
    change (lt + foldr Rplus 0 lts) with (foldr Rplus 0 (lt :: lts)) in Ha.
    rewrite <- Ha. field. exact Hn.
  - rewrite Hf. unfold _calculateFrequency. by rewrite Hc.
Qed.

Lemma recorded_average_is_the_mean_witness :
  ∃ p,
    foldl (λ db lt, recordClick 0
                      (Url.Parsed (Url.mkParts "https:" "a.com" "" "/x" "" ""))
                      lt db)
      ∅ [1200; 800] !! "a.com" = Some p
    ∧ totalClicks p = 2%nat
    ∧ avgLoadTime p = foldr Rplus 0 [1200; 800] / INR 2
    ∧ frequency p = Rare.
Proof.
  apply (recorded_average_is_the_mean 0
           (Url.mkParts "https:" "a.com" "" "/x" "" "") [1200; 800]).
  done.
Defined.

End LearningMore.
